(** * Data_Analysis_Agent: the loader and the query pipeline

    A shallow embedding of [src/Data_Analysis_Agent.py]:
    - Python text is a list of Unicode code points;
    - [re.search(r"```sql\n(.*?)```", text, re.DOTALL)] followed by
      [.group(1).strip()] is the SQL extractor;
    - [preprocess_and_save] is the loader, over a small model of the pandas
      calls it makes;
    - the "Submit Query" handler threads the store and a trace of the calls
      it issues (widgets, the model, the SQL engine). *)

From Stdlib Require Import String Ascii DecimalString NArith ZArith Bool Arith Lia List.
Import ListNotations.

(** ** Python text *)

Module PyStr.

(** A [str] is a sequence of code points. *)
Definition char := N.
Definition str := list char.

(** The line feed, [\n]. *)
Definition LF : char := 10%N.

(** A literal of the source, written as a Rocq string of ASCII characters. *)
Definition lit (s : string) : str := map N_of_ascii (list_ascii_of_string s).

Fixpoint eqb (s t : str) : bool :=
  match s, t with
  | [], [] => true
  | a :: s', b :: t' => N.eqb a b && eqb s' t'
  | _, _ => false
  end.

(** [startswith s p]: [s.startswith(p)]. *)
Fixpoint startswith (s p : str) {struct p} : bool :=
  match p with
  | [] => true
  | a :: p' =>
      match s with
      | [] => false
      | b :: s' => N.eqb a b && startswith s' p'
      end
  end.

(** [endswith s p]: [s.endswith(p)]. *)
Definition endswith (s p : str) : bool :=
  (length p <=? length s) && eqb (skipn (length s - length p) s) p.

(** [contains p s]: [p in s]. *)
Fixpoint contains (p s : str) : bool :=
  startswith s p ||
  match s with
  | [] => false
  | _ :: s' => contains p s'
  end.

(** [str.isspace] on one code point: the characters whose bidirectional
    class is WS, B or S, or whose category is Zs. *)
Definition isspace (c : char) : bool :=
  (((9 <=? c) && (c <=? 13)) || ((28 <=? c) && (c <=? 32)) ||
   (c =? 133) || (c =? 160) || (c =? 5760) ||
   ((8192 <=? c) && (c <=? 8202)) ||
   (c =? 8232) || (c =? 8233) || (c =? 8239) || (c =? 8287) || (c =? 12288))%N.

(** [lstrip], [rstrip] and [strip] with no argument. *)
Fixpoint lstrip (s : str) : str :=
  match s with
  | c :: s' => if isspace c then lstrip s' else s
  | [] => []
  end.

Definition rstrip (s : str) : str := rev (lstrip (rev s)).

Definition strip (s : str) : str := rstrip (lstrip s).

End PyStr.

Import PyStr.

(** ** The SQL extractor (lines 95-98) *)

Module Extractor.

(** The two literals of the pattern [```sql\n(.*?)```]. *)
Definition opener : str := lit "```sql" ++ [LF].
Definition fence : str := lit "```".

(** [lazy_until p s] matches [(.*?)p] at the head of [s] with DOTALL: the
    group takes no character, then one, then two, ... until [p] follows; the
    result is the group, or [None] when [p] follows nowhere. *)
Fixpoint lazy_until (p s : str) : option str :=
  if startswith s p then Some []
  else
    match s with
    | [] => None
    | c :: s' =>
        match lazy_until p s' with
        | Some g => Some (c :: g)
        | None => None
        end
    end.

(** The pattern anchored at the head of [s]: the opener, then the lazy
    group up to the fence. *)
Definition match_here (s : str) : option str :=
  if startswith s opener then lazy_until fence (skipn (length opener) s)
  else None.

(** [re.search]: the leftmost position at which the pattern matches;
    the result is [group(1)]. *)
Fixpoint search (s : str) : option str :=
  match match_here s with
  | Some g => Some g
  | None =>
      match s with
      | [] => None
      | _ :: s' => search s'
      end
  end.

(** Lines 95-98: [sql_match.group(1).strip()] when there is a match. *)
Definition extract (response : str) : option str :=
  match search response with
  | Some g => Some (strip g)
  | None => None
  end.

(** [occurs_at p s i]: [p] occurs in [s] at index [i]. *)
Definition occurs_at (p s : str) (i : nat) : Prop :=
  startswith (skipn i s) p = true.

(** [first_at p s i]: the leftmost occurrence of [p] in [s] is at [i]. *)
Definition first_at (p s : str) (i : nat) : Prop :=
  occurs_at p s i /\ forall k, k < i -> startswith (skipn k s) p = false.

(** [block_at s i]: a fenced sql block starts at [i], that is an opener
    occurs at [i] and a fence occurs somewhere after the opener. *)
Definition block_at (s : str) (i : nat) : Prop :=
  occurs_at opener s i /\
  exists j, occurs_at fence (skipn (i + length opener) s) j.

Definition has_block (s : str) : Prop := exists i, block_at s i.

(** [first_block s i j]: the first fenced sql block of [s] starts at [i],
    and its interior, which ends at the next fence, has [j] characters. *)
Definition first_block (s : str) (i j : nat) : Prop :=
  occurs_at opener s i /\
  first_at fence (skipn (i + length opener) s) j /\
  forall k, k < i -> ~ block_at s k.

(** The interior of the block at [i] with [j] characters. *)
Definition interior (s : str) (i j : nat) : str :=
  firstn j (skipn (i + length opener) s).

(** The text up to and including the closing fence of that block. *)
Definition through_block (s : str) (i j : nat) : str :=
  firstn (i + length opener + j + length fence) s.

End Extractor.

Import Extractor.

(** ** Exceptions *)

Inductive exn_class := ValueError | TypeError | OtherException.

(** An exception: its class and [str(e)]. *)
Record exn := { exn_cls : exn_class; exn_msg : str }.

Inductive result (A : Type) :=
| Ok (a : A)
| Raise (e : exn).

Arguments Ok {A} a.
Arguments Raise {A} e.

(** ** Tables *)

(** The values the libraries keep abstract: [num] is a value of a numeric
    dtype that is not NaN (pandas counts int64, float64 and bool as numeric),
    [timestamp] a datetime64 value that is not NaT, [table] the result of a
    query and [store] the state of a DuckDB connection. *)
Class Values := {
  num : Type;
  timestamp : Type;
  table : Type;
  store : Type
}.

Section Frames.
Context `{Values}.

(** A cell of a DataFrame; [Null] is NaN, None or NaT. *)
Inductive cell :=
| Null
| Text (s : str)
| Number (x : num)
| Stamp (t : timestamp).

Inductive dtype := DObject | DNumeric | DDatetime.

(** A column label. [read_csv] gives texts; [read_excel] gives whatever the
    header cell holds: a text, an integer, a float or a date. *)
Inductive label :=
| LStr (s : str)
| LInt (n : Z)
| LFloat (x : num)
| LDatetime (t : timestamp).

Coercion LStr : str >-> label.

Record column := {
  col_name : label;
  col_dtype : dtype;
  col_cells : list cell
}.

(** A DataFrame: its columns in order; the names are distinct. *)
Definition dataframe := list column.

Definition columns (df : dataframe) : list label := map col_name df.

Definition is_object (c : column) : bool :=
  match col_dtype c with DObject => true | _ => false end.

End Frames.

(** An uploaded file: [file.name] and its bytes. *)
Record uploaded_file := {
  file_name : str;
  file_bytes : list Byte.byte
}.

(** What the program asks of pandas, tempfile, the Gemini client and
    DuckDB. Every field is a call of the source whose body is not in the
    repository. *)
Class Library `{Values} := {
  (** [c.lower()] of a code point outside ASCII. *)
  unicode_lower : char -> list char;
  (** [str(x)] of a number and of a timestamp. *)
  str_of_num : num -> str;
  str_of_timestamp : timestamp -> str;
  (** The parse of one text by [pd.to_numeric]: [None] when it is not a
      number, [Some None] when it is a NaN literal. *)
  parse_numeric : str -> option (option num);
  (** The parse of one value by [pd.to_datetime], given the column it
      stands in (the format is guessed from the column). *)
  parse_timestamp : list cell -> cell -> option timestamp;
  (** [pd.read_csv(file, encoding='utf-8', na_values=...)] and
      [pd.read_excel(file, na_values=...)], given [na_values]. *)
  read_csv : uploaded_file -> list str -> result dataframe;
  read_excel : uploaded_file -> list str -> result dataframe;
  (** [os.linesep]. *)
  linesep : str;
  (** [tempfile.NamedTemporaryFile(delete=False, suffix=".csv").name] and
      the write of a text to a path. *)
  NamedTemporaryFile : result str;
  write_text : str -> str -> result unit;
  (** [model.generate_content(prompt).text] for a model name and an API
      key. *)
  generate_content : str -> str -> str -> result str;
  (** [duckdb.connect()] followed by one statement, and
      [con.execute(sql).df()]. *)
  connect_and_execute : str -> result store;
  con_execute : store -> str -> store * result table
}.

(** ** The loader (lines 21-50) *)

Module Loader.
Section Defs.
Context `{Library}.

(** [str.lower]. *)
Definition lower_char (c : char) : list char :=
  if ((65 <=? c) && (c <=? 90))%N then [(c + 32)%N]
  else if (c <? 128)%N then [c]
  else unicode_lower c.

Definition lower (s : str) : str := flat_map lower_char s.

(** [na_values=['NA', 'N/A', 'missing']] (lines 24 and 26). *)
Definition na_values : list str := [lit "NA"; lit "N/A"; lit "missing"].

(** [str(v)] of a cell of an object column, as [astype(str)] applies it:
    NaN prints as [nan]. *)
Definition astype_str (c : cell) : cell :=
  match c with
  | Null => Text (lit "nan")
  | Text s => Text s
  | Number x => Text (str_of_num x)
  | Stamp t => Text (str_of_timestamp t)
  end.

(** [re.sub(c, repl, s)] for a pattern that is the one literal character
    [c]: scan from the left, replace each occurrence, resume after it. *)
Fixpoint re_sub_char (c : char) (repl s : str) : str :=
  match s with
  | [] => []
  | a :: s' =>
      if (a =? c)%N then repl ++ re_sub_char c repl s'
      else a :: re_sub_char c repl s'
  end.

(** The double quote character. *)
Definition DQUOTE : char := 34%N.

(** [.replace({quote: quote quote}, regex=True)] on one value: texts are
    substituted, other values are left alone. *)
Definition replace_quotes (c : cell) : cell :=
  match c with
  | Text s => Text (re_sub_char DQUOTE [DQUOTE; DQUOTE] s)
  | _ => c
  end.

(** Line 32 on one column. *)
Definition escape_column (c : column) : column :=
  {| col_name := col_name c;
     col_dtype := DObject;
     col_cells := map (fun v => replace_quotes (astype_str v)) (col_cells c) |}.

(** Lines 31-32: every column of dtype object is rewritten. *)
Definition escape_quotes (df : dataframe) : dataframe :=
  map (fun c => if is_object c then escape_column c else c) df.

(** The timestamp [pd.to_datetime] reads in one value of a column: NaN has
    none, a timestamp is itself, a text or a number is parsed. *)
Definition timestamp_of (ctx : list cell) (c : cell) : option timestamp :=
  match c with
  | Null => None
  | Stamp t => Some t
  | _ => parse_timestamp ctx c
  end.

(** [errors='coerce']: a value that does not parse is NaT. *)
Definition to_datetime_cell (ctx : list cell) (c : cell) : cell :=
  match timestamp_of ctx c with
  | Some t => Stamp t
  | None => Null
  end.

Definition to_datetime_coerce (c : column) : column :=
  {| col_name := col_name c;
     col_dtype := DDatetime;
     col_cells := map (to_datetime_cell (col_cells c)) (col_cells c) |}.

(** [pd.to_numeric] on one value (errors='raise'). *)
Definition to_numeric_cell (c : cell) : result cell :=
  match c with
  | Null => Ok Null
  | Number x => Ok (Number x)
  | Text s =>
      match parse_numeric s with
      | Some (Some x) => Ok (Number x)
      | Some None => Ok Null
      | None =>
          Raise {| exn_cls := ValueError;
                   exn_msg := lit "Unable to parse string" |}
      end
  | Stamp _ =>
      Raise {| exn_cls := TypeError; exn_msg := lit "Invalid object type" |}
  end.

(** The values in order, up to the first that raises. *)
Fixpoint to_numeric_cells (cs : list cell) : result (list cell) :=
  match cs with
  | [] => Ok []
  | c :: cs' =>
      match to_numeric_cell c with
      | Raise e => Raise e
      | Ok v =>
          match to_numeric_cells cs' with
          | Raise e => Raise e
          | Ok vs => Ok (v :: vs)
          end
      end
  end.

Definition to_numeric (c : column) : result column :=
  match to_numeric_cells (col_cells c) with
  | Raise e => Raise e
  | Ok vs => Ok {| col_name := col_name c; col_dtype := DNumeric; col_cells := vs |}
  end.

(** ['date' in col.lower()] (line 35), for a label that is a text. *)
Definition is_date_name (name : str) : bool := contains (lit "date") (lower name).

(** The AttributeError of [col.lower()] on a label of another type. *)
Definition no_lower (type_name : string) : exn :=
  {| exn_cls := OtherException;
     exn_msg := lit "'" ++ lit type_name ++ lit "' object has no attribute 'lower'" |}.

(** [col.lower()]: only a text has the method. *)
Definition label_lower (l : label) : result str :=
  match l with
  | LStr s => Ok (lower s)
  | LInt _ => Raise (no_lower "int")
  | LFloat _ => Raise (no_lower "float")
  | LDatetime _ => Raise (no_lower "datetime.datetime")
  end.

(** Lines 35-41 on one column: the body of the loop. *)
Definition infer_column (c : column) : result column :=
  match label_lower (col_name c) with
  | Raise e => Raise e
  | Ok lowered =>
      if contains (lit "date") lowered then Ok (to_datetime_coerce c)
      else if is_object c then
        match to_numeric c with
        | Ok c' => Ok c'
        | Raise e =>
            match exn_cls e with
            | ValueError | TypeError => Ok c
            | OtherException => Raise e
            end
        end
      else Ok c
  end.

(** Lines 34-41: the loop over [df.columns], left at the first exception. *)
Fixpoint infer_types (df : dataframe) : result dataframe :=
  match df with
  | [] => Ok []
  | c :: df' =>
      match infer_column c with
      | Raise e => Raise e
      | Ok c' =>
          match infer_types df' with
          | Raise e => Raise e
          | Ok r => Ok (c' :: r)
          end
      end
  end.

(** *** The words of the specification *)

(** A value is numeric-parseable when it is missing, a number already, or
    a text that [pd.to_numeric] reads as a number. *)
Definition numeric_parseable (c : cell) : bool :=
  match c with
  | Null | Number _ => true
  | Text s => match parse_numeric s with Some _ => true | None => false end
  | Stamp _ => false
  end.

(** The numeric value of a parseable value. *)
Definition numeric_value (c : cell) : cell :=
  match c with
  | Number x => Number x
  | Text s => match parse_numeric s with Some (Some x) => Number x | _ => Null end
  | _ => Null
  end.

Definition is_numeric_cell (c : cell) : bool :=
  match c with Null | Number _ => true | _ => false end.

Definition is_timestamp_cell (c : cell) : bool :=
  match c with Null | Stamp _ => true | _ => false end.

(** Each double quote of a text written twice. *)
Definition double_quotes (s : str) : str :=
  flat_map (fun c => if (c =? DQUOTE)%N then [DQUOTE; DQUOTE] else [c]) s.

(** The text of a value: [str(v)]. *)
Definition text_of (c : cell) : str :=
  match astype_str c with
  | Text s => s
  | _ => []
  end.

(** The column the type inference sees for a column [c] of the table that
    was read: rewritten by lines 31-32 when its dtype is object. *)
Definition escaped (c : column) : column :=
  if is_object c then escape_column c else c.

(** *** The temporary CSV (line 45) *)

(** The text of a cell in the file; NaN is the empty text. *)
Definition cell_text (c : cell) : str :=
  match c with
  | Null => []
  | Text s => s
  | Number x => str_of_num x
  | Stamp t => str_of_timestamp t
  end.

(** [csv.QUOTE_ALL]: a field is written between quotes, each quote inside
    it written twice. *)
Definition quote_field (s : str) : str :=
  [DQUOTE] ++ re_sub_char DQUOTE [DQUOTE; DQUOTE] s ++ [DQUOTE].

Fixpoint join (sep : str) (fields : list str) : str :=
  match fields with
  | [] => []
  | [f] => f
  | f :: fs => f ++ sep ++ join sep fs
  end.

Definition COMMA : char := 44%N.

Definition csv_line (fields : list str) : str :=
  join [COMMA] (map quote_field fields) ++ linesep.

(** The number of rows: the length of the index, which every column
    shares. *)
Definition nrows (df : dataframe) : nat :=
  match df with
  | [] => 0
  | c :: _ => length (col_cells c)
  end.

Definition row_at (df : dataframe) (i : nat) : list cell :=
  map (fun c => nth i (col_cells c) Null) df.

Definition rows (df : dataframe) : list (list cell) :=
  map (row_at df) (seq 0 (nrows df)).

(** [str(l)] of a label, as the header of the file has it. *)
Definition label_text (l : label) : str :=
  match l with
  | LStr s => s
  | LInt n => lit (NilZero.string_of_int (Z.to_int n))
  | LFloat x => str_of_num x
  | LDatetime t => str_of_timestamp t
  end.

(** [df.to_csv(path, index=False, quoting=csv.QUOTE_ALL)]: the header,
    then one record per row. *)
Definition to_csv (df : dataframe) : str :=
  csv_line (map label_text (columns df)) ++
  flat_map (fun r => csv_line (map cell_text r)) (rows df).

(** *** [preprocess_and_save] *)

(** What Streamlit is asked to show, and the calls that leave the
    process. *)
Inductive event :=
| StError (m : str)
| StWarning (m : str)
| StSuccess (m : str)
| StSpinner (m : str)
| StCode (body : str)
| StMarkdown (body : str)
| StDataframe (t : table)
| ModelCall (prompt : str)
| SqlExecute (sql : str).

(** The triple the loader returns; each part is [None] or a value. *)
Definition loaded : Type := option str * option (list label) * option dataframe.

Definition nothing : loaded := (None, None, None).

Definition bind {A B : Type} (r : result A) (k : A -> result B) : result B :=
  match r with
  | Ok a => k a
  | Raise e => Raise e
  end.

Notation "x <- r ;; k" := (bind r (fun x => k))
  (at level 61, r at next level, right associativity).

(** Lines 31-47, once [df] is read. *)
Definition process (df0 : dataframe) : result loaded :=
  df <- infer_types (escape_quotes df0) ;;
  temp_path <- NamedTemporaryFile ;;
  _ <- write_text temp_path (to_csv df) ;;
  Ok (Some temp_path, Some (columns df), Some df).

(** Lines 23-47: the body of the [try]. *)
Definition try_body (file : uploaded_file) : result (list event * loaded) :=
  if endswith (file_name file) (lit ".csv") then
    df <- read_csv file na_values ;;
    r <- process df ;;
    Ok ([], r)
  else if endswith (file_name file) (lit ".xlsx") then
    df <- read_excel file na_values ;;
    r <- process df ;;
    Ok ([], r)
  else
    Ok ([StError (lit "Unsupported file format. Please upload a CSV or Excel file.")],
        nothing).

(** Lines 21-50: the messages shown and the triple returned. *)
Definition preprocess_and_save (file : uploaded_file) : list event * loaded :=
  match try_body file with
  | Ok r => r
  | Raise e =>
      ([StError (lit "Error processing file: " ++ exn_msg e)], nothing)
  end.

(** The table the reader hands over for [file]. *)
Definition frame_read (file : uploaded_file) (df0 : dataframe) : Prop :=
  (endswith (file_name file) (lit ".csv") = true /\
   read_csv file na_values = Ok df0) \/
  (endswith (file_name file) (lit ".csv") = false /\
   endswith (file_name file) (lit ".xlsx") = true /\
   read_excel file na_values = Ok df0).

(** [step_raises file e]: a step of the ingestion of [file] raises [e]:
    the reader, the type inference (line 35 on a label that is not a
    text), the creation of the temporary file, or the write. *)
Inductive step_raises (file : uploaded_file) (e : exn) : Prop :=
| raises_read_csv :
    endswith (file_name file) (lit ".csv") = true ->
    read_csv file na_values = Raise e ->
    step_raises file e
| raises_read_excel :
    endswith (file_name file) (lit ".csv") = false ->
    endswith (file_name file) (lit ".xlsx") = true ->
    read_excel file na_values = Raise e ->
    step_raises file e
| raises_infer (df0 : dataframe) :
    frame_read file df0 ->
    infer_types (escape_quotes df0) = Raise e ->
    step_raises file e
| raises_tempfile (df0 df : dataframe) :
    frame_read file df0 ->
    infer_types (escape_quotes df0) = Ok df ->
    NamedTemporaryFile = Raise e ->
    step_raises file e
| raises_write (df0 df : dataframe) (temp_path : str) :
    frame_read file df0 ->
    infer_types (escape_quotes df0) = Ok df ->
    NamedTemporaryFile = Ok temp_path ->
    write_text temp_path (to_csv df) = Raise e ->
    step_raises file e.

End Defs.
End Loader.

(** ** The query pipeline (lines 11-18 and 82-107) *)

Module Pipeline.
Import Loader.
Section Defs.
Context `{Library}.

Record GeminiChatWrapper := {
  api_key : str;
  model : str
}.

(** [GeminiChatWrapper(api_key=...)], the model left at its default. *)
Definition new_agent (key : str) : GeminiChatWrapper :=
  {| api_key := key; model := lit "gemini-1.5-flash" |}.

(** [GeminiChatWrapper.run]. *)
Definition run (agent : GeminiChatWrapper) (prompt : str) : result str :=
  generate_content (model agent) (api_key agent) prompt.

(** What a run of the script holds while a question is handled:
    [st.session_state.gemini_key], the DuckDB connection with the loaded
    table, and what has been shown and called so far. *)
Record world := {
  gemini_key : option str;
  con : store;
  trace : list event
}.

Definition emit (e : event) (w : world) : world :=
  {| gemini_key := gemini_key w; con := con w; trace := trace w ++ [e] |}.

Definition set_con (db : store) (w : world) : world :=
  {| gemini_key := gemini_key w; con := db; trace := trace w |}.

(** Lines 87-92. *)
Definition make_prompt (user_query : str) : str :=
  lit "You are a data analyst. Given the table `uploaded_data`, " ++
  lit "generate a SQL query in DuckDB dialect to answer the following:" ++
  [LF; LF] ++ user_query ++ [LF; LF] ++
  lit "Return only the SQL query inside triple backticks (```sql).".

Definition is_empty (s : str) : bool :=
  match s with [] => true | _ => false end.

(** Lines 83-107: the body of [if st.button("Submit Query")]. *)
Definition submit_query (agent : GeminiChatWrapper) (user_query : str)
    (w : world) : world :=
  if is_empty (strip user_query) then
    emit (StWarning (lit "Please enter a valid query.")) w
  else
    let w := emit (StSpinner (lit "Processing with Gemini...")) w in
    let prompt := make_prompt user_query in
    let w := emit (ModelCall prompt) w in
    match run agent prompt with
    | Raise e => emit (StError (lit "Failed to run Gemini query: " ++ exn_msg e)) w
    | Ok gemini_response =>
        match extract gemini_response with
        | Some sql_query =>
            let w := emit (StCode sql_query) w in
            let w := emit (SqlExecute sql_query) w in
            let (db, r) := con_execute (con w) sql_query in
            let w := set_con db w in
            match r with
            | Ok res =>
                emit (StDataframe res)
                  (emit (StSuccess (lit "Query executed successfully!")) w)
            | Raise e =>
                emit (StError (lit "Failed to run Gemini query: " ++ exn_msg e)) w
            end
        | None =>
            emit (StMarkdown gemini_response)
              (emit (StWarning
                 (lit "Gemini did not return a valid SQL query. Try rephrasing.")) w)
        end
    end.

(** Line 75: the statement that loads the temporary CSV. *)
Definition create_table_sql (temp_path : str) : str :=
  lit "CREATE TABLE uploaded_data AS SELECT * FROM read_csv_auto('" ++
  temp_path ++ lit "')".

(** Lines 69-75: the store is built when the three parts are truthy. *)
Definition load_store (r : loaded) : option (result store) :=
  match r with
  | (Some temp_path, Some cols, Some _) =>
      if negb (is_empty temp_path) && negb (match cols with [] => true | _ => false end)
      then Some (connect_and_execute (create_table_sql temp_path))
      else None
  | _ => None
  end.

End Defs.
End Pipeline.

(** ** A small library for the examples

    Numbers are naturals written in decimal, timestamps are days written
    as eight digits, and the reader takes unquoted comma-separated fields. *)

Module Demo.
Import Loader Pipeline.

#[export] Instance demo_values : Values := {
  num := N;
  timestamp := N;
  table := list str;
  store := list str
}.

Definition is_digit (c : char) : bool := ((48 <=? c) && (c <=? 57))%N.

Definition decimal (s : str) : N :=
  fold_left (fun acc c => (10 * acc + (c - 48))%N) s 0%N.

Definition demo_parse_numeric (s : str) : option (option N) :=
  if negb (Pipeline.is_empty s) && forallb is_digit s then Some (Some (decimal s))
  else None.

Definition demo_parse_timestamp (ctx : list cell) (c : cell) : option N :=
  match c with
  | Text s =>
      if (length s =? 8) && forallb is_digit s then Some (decimal s) else None
  | _ => None
  end.

Definition show_decimal (x : N) : str :=
  lit (DecimalString.NilZero.string_of_uint (N.to_uint x)).

(** [s.split(sep)] for a separator of one character. *)
Fixpoint split (sep : char) (s : str) : list str :=
  match s with
  | [] => [[]]
  | c :: s' =>
      if (c =? sep)%N then [] :: split sep s'
      else
        match split sep s' with
        | f :: fs => (c :: f) :: fs
        | [] => [[c]]
        end
  end.

(** The markers pandas takes for missing by default. *)
Definition default_na : list str :=
  [ []; lit "#N/A"; lit "#N/A N/A"; lit "#NA"; lit "-1.#IND"; lit "-1.#QNAN";
    lit "-NaN"; lit "-nan"; lit "1.#IND"; lit "1.#QNAN"; lit "<NA>"; lit "N/A";
    lit "NA"; lit "NULL"; lit "NaN"; lit "None"; lit "n/a"; lit "nan"; lit "null" ].

Definition mark_na (na : list str) (f : str) : option str :=
  if existsb (PyStr.eqb f) (na ++ default_na) then None else Some f.

Definition is_number (f : option str) : bool :=
  match f with
  | None => true
  | Some s => negb (Pipeline.is_empty s) && forallb is_digit s
  end.

Definition read_column (na : list str) (name : str) (fields : list str) : column :=
  let marked := map (mark_na na) fields in
  if forallb is_number marked then
    {| col_name := name; col_dtype := DNumeric;
       col_cells := map (fun f => match f with
                                  | Some s => Number (decimal s)
                                  | None => Null
                                  end) marked |}
  else
    {| col_name := name; col_dtype := DObject;
       col_cells := map (fun f => match f with
                                  | Some s => Text s
                                  | None => Null
                                  end) marked |}.

Definition decode (bs : list Byte.byte) : str := map Byte.to_N bs.

Definition encode (s : string) : list Byte.byte :=
  map byte_of_ascii (list_ascii_of_string s).

Definition demo_read (file : uploaded_file) (na : list str) : result dataframe :=
  match filter (fun l => negb (Pipeline.is_empty l)) (split LF (decode (file_bytes file))) with
  | [] =>
      Raise {| exn_cls := OtherException;
               exn_msg := lit "No columns to parse from file" |}
  | header :: records =>
      let names := split COMMA header in
      let fields := map (split COMMA) records in
      Ok (map (fun i => read_column na (nth i names [])
                          (map (fun r => nth i r []) fields))
              (seq 0 (length names)))
  end.

#[export] Instance demo_library : Library := {
  unicode_lower := fun c => [c];
  str_of_num := show_decimal;
  str_of_timestamp := show_decimal;
  parse_numeric := demo_parse_numeric;
  parse_timestamp := demo_parse_timestamp;
  read_csv := demo_read;
  read_excel := demo_read;
  linesep := [LF];
  NamedTemporaryFile := Ok (lit "/tmp/tmpdata.csv");
  write_text := fun _ _ => Ok tt;
  generate_content := fun _ _ _ => Ok (lit "SELECT 1");
  connect_and_execute := fun sql => Ok [sql];
  con_execute := fun db sql => (db ++ [sql], Ok [sql])
}.

(** *** Inputs of the examples *)

(** Two sql blocks, one after the other. *)
Definition two_blocks : str :=
  lit "```sql" ++ [LF] ++ lit "SELECT 1" ++ [LF] ++ lit "```" ++ [LF] ++
  lit "```sql" ++ [LF] ++ lit "SELECT 2" ++ [LF] ++ lit "```".

(** A table with a text column, a column of numbers kept as text and a
    date column. *)
Definition people : dataframe :=
  [ {| col_name := lit "name"; col_dtype := DObject;
       col_cells := [Text (lit "al" ++ [DQUOTE] ++ lit "ice"); Null] |};
    {| col_name := lit "age"; col_dtype := DObject;
       col_cells := [Text (lit "30"); Text (lit "41")] |};
    {| col_name := lit "Birth_Date"; col_dtype := DObject;
       col_cells := [Text (lit "19900101"); Text (lit "oops")] |} ].

Definition people_csv : uploaded_file :=
  {| file_name := lit "people.csv";
     file_bytes := encode "name,city
alice,Oslo
NA,missing
" |}.

Definition notes_txt : uploaded_file :=
  {| file_name := lit "notes.txt"; file_bytes := encode "hello" |}.

Definition empty_csv : uploaded_file :=
  {| file_name := lit "empty.csv"; file_bytes := [] |}.

Definition demo_agent : GeminiChatWrapper := new_agent (lit "key").

Definition demo_world : world :=
  {| gemini_key := Some (lit "key"); con := []; trace := [] |}.

End Demo.

Example extract_none :
  extract (lit "no fenced block here") = None.
Proof. reflexivity. Qed.

Example extract_one :
  extract (lit "```sql" ++ [LF] ++ lit "SELECT 1" ++ [LF] ++ lit "```")
  = Some (lit "SELECT 1").
Proof. reflexivity. Qed.

Example extract_first_of_two :
  extract (lit "```sql" ++ [LF] ++ lit "SELECT 1" ++ [LF] ++ lit "```" ++ [LF] ++
           lit "```sql" ++ [LF] ++ lit "SELECT 2" ++ [LF] ++ lit "```")
  = Some (lit "SELECT 1").
Proof. reflexivity. Qed.

(** ** Facts about text *)

Section StrFacts.

Lemma eqb_refl (s : str) : eqb s s = true.
Proof.
  induction s as [|a s IH]; simpl; [reflexivity|].
  now rewrite N.eqb_refl, IH.
Qed.

Lemma eqb_eq (s t : str) : eqb s t = true <-> s = t.
Proof.
  split.
  - revert t; induction s as [|a s IH]; intros [|b t] H; simpl in H;
      try discriminate; [reflexivity|].
    apply andb_true_iff in H as [Hab Hst].
    apply N.eqb_eq in Hab; subst b. now rewrite (IH t Hst).
  - intros ->; apply eqb_refl.
Qed.

Lemma startswith_app (p r : str) : startswith (p ++ r) p = true.
Proof.
  induction p as [|a p IH]; simpl; [reflexivity|].
  now rewrite N.eqb_refl, IH.
Qed.

Lemma startswith_split (s p : str) :
  startswith s p = true -> s = p ++ skipn (length p) s.
Proof.
  revert s; induction p as [|a p IH]; intros s H; simpl in *; [reflexivity|].
  destruct s as [|b s]; [discriminate|].
  apply andb_true_iff in H as [Hab Hsp].
  apply N.eqb_eq in Hab; subst b. simpl. now rewrite <- (IH s Hsp).
Qed.

Lemma startswith_length (s p : str) :
  startswith s p = true -> length p <= length s.
Proof.
  intros H. rewrite (startswith_split _ _ H), length_app. lia.
Qed.

(** Whether [p] is at the head of [u] is decided by the first [length p]
    characters of [u]. *)
Lemma startswith_firstn_app (p u t : str) (m : nat) :
  length p <= m -> m <= length u ->
  startswith (firstn m u ++ t) p = startswith u p.
Proof.
  revert u m; induction p as [|a p IH]; intros u m Hp Hu; simpl; [reflexivity|].
  simpl in Hp. destruct m as [|m]; [lia|].
  destruct u as [|b u]; simpl in Hu; [lia|]. simpl.
  rewrite (IH u m); [reflexivity | lia | lia].
Qed.

Lemma skipn_firstn_app (s t : str) (k n : nat) :
  k <= n -> n <= length s ->
  skipn k (firstn n s ++ t) = firstn (n - k) (skipn k s) ++ t.
Proof.
  intros Hk Hn.
  rewrite skipn_app, length_firstn, Nat.min_l by assumption.
  replace (k - n) with 0 by lia. simpl.
  now rewrite skipn_firstn_comm.
Qed.

(** An occurrence that ends inside the first [n] characters of [s] is an
    occurrence in every text that starts with these characters. *)
Lemma startswith_local (p s t : str) (k n : nat) :
  k + length p <= n -> n <= length s ->
  startswith (skipn k (firstn n s ++ t)) p = startswith (skipn k s) p.
Proof.
  intros Hk Hn.
  rewrite skipn_firstn_app by lia.
  apply startswith_firstn_app; [lia|].
  rewrite length_skipn. lia.
Qed.

Lemma occurs_at_length (p s : str) (i : nat) :
  p <> [] -> occurs_at p s i -> i + length p <= length s.
Proof.
  unfold occurs_at. intros Hp H. apply startswith_length in H.
  rewrite length_skipn in H.
  destruct p as [|a p]; [congruence|]. simpl in *. lia.
Qed.

End StrFacts.

(** ** The extractor finds the first block *)

Section ExtractorFacts.

Lemma lazy_until_Some (p s g : str) :
  lazy_until p s = Some g -> first_at p s (length g) /\ g = firstn (length g) s.
Proof.
  revert g; induction s as [|c s IH]; intros g; simpl.
  - destruct (startswith [] p) eqn:E; [|discriminate].
    intros [= <-]. repeat split; auto. intros k Hk; inversion Hk.
  - destruct (startswith (c :: s) p) eqn:E.
    + intros [= <-]. repeat split; auto. intros k Hk; inversion Hk.
    + destruct (lazy_until p s) as [g'|] eqn:L; [|discriminate].
      intros [= <-]. destruct (IH g' eq_refl) as [[Ho Hm] Hg].
      simpl. repeat split.
      * exact Ho.
      * intros [|k] Hk; simpl; [exact E|]. apply Hm. lia.
      * now rewrite <- Hg.
Qed.

Lemma lazy_until_None (p s : str) :
  lazy_until p s = None -> forall j, startswith (skipn j s) p = false.
Proof.
  induction s as [|c s IH]; simpl.
  - destruct (startswith [] p) eqn:E; [discriminate|].
    intros _ j. now rewrite skipn_nil.
  - destruct (startswith (c :: s) p) eqn:E; [discriminate|].
    destruct (lazy_until p s) eqn:L; [discriminate|].
    intros _ [|j]; simpl; [exact E|]. now apply IH.
Qed.

(** The leftmost occurrence decides the lazy group. *)
Lemma lazy_until_first (p s : str) (j : nat) :
  first_at p s j -> lazy_until p s = Some (firstn j s).
Proof.
  intros [Ho Hm]. destruct (lazy_until p s) as [g|] eqn:L.
  - destruct (lazy_until_Some _ _ _ L) as [[Ho' Hm'] Hg].
    destruct (Nat.lt_trichotomy (length g) j) as [Hlt|[Heq|Hgt]].
    + unfold occurs_at in Ho'. rewrite (Hm _ Hlt) in Ho'. discriminate.
    + now rewrite <- Heq, <- Hg.
    + unfold occurs_at in Ho. rewrite (Hm' _ Hgt) in Ho. discriminate.
  - unfold occurs_at in Ho. rewrite (lazy_until_None _ _ L j) in Ho. discriminate.
Qed.

Lemma match_here_Some (s g : str) :
  match_here s = Some g ->
  occurs_at opener s 0 /\ first_at fence (skipn (length opener) s) (length g) /\
  g = firstn (length g) (skipn (length opener) s).
Proof.
  unfold match_here, occurs_at. change (skipn 0 s) with s.
  destruct (startswith s opener) eqn:E; [|discriminate].
  intros L. destruct (lazy_until_Some _ _ _ L) as [Hf Hg]. auto.
Qed.

Lemma match_here_None (s : str) : match_here s = None -> ~ block_at s 0.
Proof.
  unfold match_here, block_at, occurs_at.
  intros Hm [Ho [j Hj]]. change (skipn 0 s) with s in Ho. rewrite Ho in Hm.
  change (0 + length opener) with (length opener) in Hj.
  rewrite (lazy_until_None _ _ Hm j) in Hj. discriminate.
Qed.

Lemma block_at_S (c : char) (s : str) (k : nat) :
  block_at (c :: s) (S k) <-> block_at s k.
Proof. unfold block_at, occurs_at. simpl. tauto. Qed.

Lemma no_block_nil (k : nat) : ~ block_at [] k.
Proof.
  unfold block_at, occurs_at. intros [Ho _].
  rewrite skipn_nil in Ho. discriminate.
Qed.

(** What [search] returns: the interior of the first block, or nothing when
    the text has no block. *)
Lemma search_spec (s : str) :
  match search s with
  | Some g => exists i j, first_block s i j /\ g = interior s i j
  | None => ~ has_block s
  end.
Proof.
  induction s as [|c s IH].
  - simpl. destruct (match_here []) eqn:M; [discriminate M|].
    intros [k Hk]. exact (no_block_nil k Hk).
  - simpl search. destruct (match_here (c :: s)) as [g|] eqn:M.
    + destruct (match_here_Some _ _ M) as (Ho & Hf & Hg).
      exists 0, (length g). split; [|exact Hg].
      repeat split; try assumption; try apply Hf.
      intros k Hk; inversion Hk.
    + pose proof (match_here_None _ M) as H0.
      destruct (search s) as [g|].
      * destruct IH as (i & j & (Ho & Hf & Hm) & Hg).
        exists (S i), j. split; [|exact Hg].
        repeat split; try assumption; try apply Hf.
        intros [|k] Hk; [exact H0|].
        rewrite block_at_S. apply Hm. lia.
      * intros [[|k] Hk]; [exact (H0 Hk)|].
        apply IH. exists k. now apply (block_at_S c).
Qed.

(** The first block is unique, so [search] is determined by it. *)
Lemma search_first_block (s : str) (i j : nat) :
  first_block s i j -> search s = Some (interior s i j).
Proof.
  revert s; induction i as [|i IH]; intros s (Ho & Hf & Hm).
  - destruct s as [|c s]; [exfalso; revert Ho; unfold occurs_at; simpl; discriminate|].
    simpl search. unfold match_here. unfold occurs_at in Ho; simpl skipn in Ho.
    rewrite Ho. unfold interior.
    change (0 + length opener) with (length opener) in *.
    now rewrite (lazy_until_first _ _ _ Hf).
  - destruct s as [|c s].
    { exfalso. unfold occurs_at in Ho. rewrite skipn_nil in Ho. discriminate. }
    simpl search. destruct (match_here (c :: s)) as [g|] eqn:M.
    + exfalso. destruct (match_here_Some _ _ M) as (Ho0 & [Hf0 _] & _).
      apply (Hm 0); [lia|]. split; [exact Ho0|]. now exists (length g).
    + apply (IH s). repeat split; try assumption; try apply Hf.
      intros k Hk. rewrite <- (block_at_S c). apply Hm. lia.
Qed.

Lemma firstn_firstn_app (u t : str) (j m : nat) :
  j <= m -> m <= length u -> firstn j (firstn m u ++ t) = firstn j u.
Proof.
  intros Hj Hm.
  rewrite firstn_app, length_firstn, Nat.min_l by assumption.
  replace (j - m) with 0 by lia.
  rewrite firstn_firstn, Nat.min_l by assumption.
  simpl. apply app_nil_r.
Qed.

Lemma first_block_length (s : str) (i j : nat) :
  first_block s i j -> i + length opener + j + length fence <= length s.
Proof.
  intros (Ho & [Hf _] & _).
  apply occurs_at_length in Ho; [|discriminate].
  apply occurs_at_length in Hf; [|discriminate].
  rewrite length_skipn in Hf. lia.
Qed.

(** The first block of a text is the first block of every text that agrees
    with it up to the closing fence. *)
Lemma first_block_prefix (s t : str) (i j : nat) :
  first_block s i j ->
  first_block (through_block s i j ++ t) i j /\
  interior (through_block s i j ++ t) i j = interior s i j.
Proof.
  intros Hb. pose proof (first_block_length _ _ _ Hb) as Hlen.
  destruct Hb as (Ho & [Hf Hfm] & Hm).
  unfold through_block, interior.
  set (n := i + length opener + j + length fence) in *.
  assert (Hfence : forall m, m <= j ->
            startswith (skipn m (skipn (i + length opener) (firstn n s ++ t))) fence
            = startswith (skipn m (skipn (i + length opener) s)) fence).
  { intros m Hmj. rewrite !skipn_skipn.
    apply startswith_local; [unfold n; lia | exact Hlen]. }
  split; [repeat split|].
  - unfold occurs_at. rewrite startswith_local; [exact Ho | unfold n; lia | exact Hlen].
  - unfold occurs_at. rewrite Hfence by lia. exact Hf.
  - intros m Hmj. rewrite Hfence by lia. now apply Hfm.
  - intros k Hk [Hko _]. apply (Hm k Hk). split.
    + unfold occurs_at in *.
      rewrite startswith_local in Hko; [exact Hko | unfold n; lia | exact Hlen].
    + exists (i - k + j). unfold occurs_at in *.
      rewrite skipn_skipn. rewrite skipn_skipn in Hf.
      replace (i - k + j + (k + length opener)) with (j + (i + length opener)) by lia.
      exact Hf.
  - rewrite skipn_firstn_app; [|unfold n; lia | exact Hlen].
    apply firstn_firstn_app; [unfold n; lia|].
    rewrite length_skipn. unfold n in *. lia.
Qed.

Lemma lstrip_app_keep (a : str) (c : char) :
  isspace c = false -> lstrip (a ++ [c]) = lstrip a ++ [c].
Proof.
  intros Hc. induction a as [|x a IH]; simpl.
  - now rewrite Hc.
  - destruct (isspace x); [exact IH | reflexivity].
Qed.

Lemma rstrip_cons_keep (c : char) (s : str) :
  isspace c = false -> rstrip (c :: s) = c :: rstrip s.
Proof.
  intros Hc. unfold rstrip. simpl rev at 2.
  now rewrite (lstrip_app_keep (rev s) c Hc), rev_app_distr.
Qed.

Lemma lstrip_head (s : str) :
  match lstrip s with
  | [] => True
  | c :: _ => isspace c = false
  end.
Proof.
  induction s as [|c s IH]; simpl; [exact I|].
  destruct (isspace c) eqn:Hc; [exact IH | exact Hc].
Qed.

Lemma lstrip_split (s : str) :
  exists lead, s = lead ++ lstrip s /\ forallb isspace lead = true.
Proof.
  induction s as [|c s (lead & Hs & Hl)]; simpl.
  - now exists [].
  - destruct (isspace c) eqn:Hc.
    + exists (c :: lead). simpl. rewrite Hc, Hl. split; [now f_equal | reflexivity].
    + now exists [].
Qed.

Lemma rstrip_split (s : str) :
  exists trail, s = rstrip s ++ trail /\ forallb isspace trail = true.
Proof.
  unfold rstrip. destruct (lstrip_split (rev s)) as (a & Ha & Hsp).
  exists (rev a). split.
  - apply (f_equal (@rev char)) in Ha.
    now rewrite rev_involutive, rev_app_distr in Ha.
  - apply forallb_forall. intros x Hx. apply in_rev in Hx.
    now apply (proj1 (forallb_forall _ _) Hsp).
Qed.

(** What [strip] leaves: the text without the whitespace at its two ends. *)
Lemma strip_split (s : str) :
  exists lead trail,
    s = lead ++ strip s ++ trail /\
    forallb isspace lead = true /\
    forallb isspace trail = true /\
    match strip s with [] => True | c :: _ => isspace c = false end /\
    match rev (strip s) with [] => True | c :: _ => isspace c = false end.
Proof.
  destruct (lstrip_split s) as (lead & Hs & Hl).
  destruct (rstrip_split (lstrip s)) as (trail & Ht & Htl).
  exists lead, trail. unfold strip. repeat split; try assumption.
  - now rewrite <- Ht.
  - pose proof (lstrip_head s) as Hh.
    destruct (lstrip s) as [|c t]; [exact I|].
    now rewrite (rstrip_cons_keep c t Hh).
  - unfold rstrip. rewrite rev_involutive. apply lstrip_head.
Qed.

End ExtractorFacts.

(** C1. When the response holds a fenced sql block, the extractor returns
    the trimmed interior of the first one. The block is the first opener
    that has a fence after it, and its interior ends at the next fence.
    The statement returned is that interior without the whitespace at its
    two ends: the interior is whitespace, then the statement, then
    whitespace, and the statement neither begins nor ends with a whitespace
    character. Whatever follows the closing fence, further sql blocks
    included, has no effect on the result. *)
Theorem extract_first_block (response : str) :
  has_block response ->
  exists i j sql lead trail,
    first_block response i j /\
    extract response = Some sql /\
    interior response i j = lead ++ sql ++ trail /\
    forallb isspace lead = true /\
    forallb isspace trail = true /\
    match sql with [] => True | c :: _ => isspace c = false end /\
    match rev sql with [] => True | c :: _ => isspace c = false end /\
    forall rest,
      extract (through_block response i j ++ rest) = extract response.
Proof.
  intros Hb. pose proof (search_spec response) as Hs.
  destruct (search response) as [g|] eqn:E; [|contradiction].
  destruct Hs as (i & j & Hfb & Hg).
  destruct (strip_split g) as (lead & trail & Hsplit & Hl & Ht & Hhead & Hlast).
  exists i, j, (strip g), lead, trail.
  split; [exact Hfb|]. split; [unfold extract; now rewrite E|].
  split; [now rewrite <- Hg|].
  repeat (split; [assumption|]).
  intros rest. destruct (first_block_prefix response rest i j Hfb) as [Hfb' Hi].
  unfold extract.
  rewrite (search_first_block _ _ _ Hfb'), E, Hi. now rewrite <- Hg.
Qed.

(** ** The loader *)

Section LoaderFacts.
Import Loader.
Context `{Library}.

Lemma to_numeric_cell_parseable (c : cell) :
  numeric_parseable c = true -> to_numeric_cell c = Ok (numeric_value c).
Proof.
  destruct c as [|s|x|t]; simpl; try reflexivity; try discriminate.
  destruct (parse_numeric s) as [[x|]|]; intros; try reflexivity; discriminate.
Qed.

Lemma to_numeric_cell_unparseable (c : cell) :
  numeric_parseable c = false ->
  exists e, to_numeric_cell c = Raise e /\ exn_cls e <> OtherException.
Proof.
  destruct c as [|s|x|t]; simpl; try discriminate.
  - destruct (parse_numeric s) as [[x|]|]; try discriminate.
    intros _. eexists; split; [reflexivity|]. simpl. discriminate.
  - intros _. eexists; split; [reflexivity|]. simpl. discriminate.
Qed.

Lemma to_numeric_cells_all (cs : list cell) :
  forallb numeric_parseable cs = true ->
  to_numeric_cells cs = Ok (map numeric_value cs).
Proof.
  induction cs as [|c cs IH]; simpl; [reflexivity|].
  intros Hp. apply andb_true_iff in Hp as [Hc Hcs].
  now rewrite (to_numeric_cell_parseable c Hc), (IH Hcs).
Qed.

Lemma to_numeric_cells_some (cs : list cell) :
  forallb numeric_parseable cs = false ->
  exists e, to_numeric_cells cs = Raise e /\ exn_cls e <> OtherException.
Proof.
  induction cs as [|c cs IH]; simpl; [discriminate|].
  intros Hp. destruct (numeric_parseable c) eqn:Hc.
  - rewrite (to_numeric_cell_parseable c Hc).
    destruct (IH Hp) as (e & -> & He). now exists e.
  - destruct (to_numeric_cell_unparseable c Hc) as (e & -> & He). now exists e.
Qed.

Lemma numeric_value_is_numeric (cs : list cell) :
  forallb is_numeric_cell (map numeric_value cs) = true.
Proof.
  induction cs as [|c cs IH]; simpl; [reflexivity|]. rewrite IH, andb_true_r.
  destruct c as [|s|x|t]; simpl; try reflexivity.
  now destruct (parse_numeric s) as [[x|]|].
Qed.

(** The body of the loop on a label that is a text. *)
Lemma infer_column_text_label (c : column) (name : str) :
  col_name c = LStr name ->
  infer_column c =
    if is_date_name name then Ok (to_datetime_coerce c)
    else if is_object c then
      match to_numeric c with
      | Ok c' => Ok c'
      | Raise e =>
          match exn_cls e with
          | ValueError | TypeError => Ok c
          | OtherException => Raise e
          end
      end
    else Ok c.
Proof. intros Hn. unfold infer_column. now rewrite Hn. Qed.

(** On a label that is not a text line 35 raises. *)
Lemma infer_column_other_label (c : column) :
  (forall name, col_name c <> LStr name) -> exists e, infer_column c = Raise e.
Proof.
  intros Hn. unfold infer_column.
  destruct (col_name c) as [s|n|x|t]; simpl; eauto.
  now destruct (Hn s).
Qed.

(** With a text for a label the body of the loop never raises: the only
    exceptions of [pd.to_numeric] are the two the handler of line 40
    names. *)
Lemma infer_column_total (c : column) (name : str) :
  col_name c = LStr name -> exists c', infer_column c = Ok c'.
Proof.
  intros Hn. rewrite (infer_column_text_label c name Hn).
  destruct (is_date_name name); [eauto|].
  destruct (is_object c); [|eauto].
  unfold to_numeric.
  destruct (forallb numeric_parseable (col_cells c)) eqn:Hp.
  - rewrite (to_numeric_cells_all _ Hp). eauto.
  - destruct (to_numeric_cells_some _ Hp) as (e & -> & He).
    exists c. destruct (exn_cls e); congruence.
Qed.

(** When the body of the loop returns, the column has kept its label and
    its number of rows. *)
Lemma infer_column_shape (c c' : column) :
  infer_column c = Ok c' ->
  col_name c' = col_name c /\ length (col_cells c') = length (col_cells c).
Proof.
  unfold infer_column. destruct (label_lower (col_name c)) as [l|e]; [|discriminate].
  destruct (contains (lit "date") l).
  { intros [= <-]. simpl. now rewrite length_map. }
  destruct (is_object c); [|now intros [= <-]].
  unfold to_numeric.
  destruct (forallb numeric_parseable (col_cells c)) eqn:Hp.
  - rewrite (to_numeric_cells_all _ Hp). intros [= <-]. simpl. now rewrite length_map.
  - destruct (to_numeric_cells_some _ Hp) as (e & -> & He).
    destruct (exn_cls e); try congruence; now intros [= <-].
Qed.

(** The loop handles the columns one by one, in place. *)
Lemma infer_types_nth (df df' : dataframe) :
  infer_types df = Ok df' ->
  forall i c, nth_error df i = Some c ->
    exists c', infer_column c = Ok c' /\ nth_error df' i = Some c'.
Proof.
  revert df'; induction df as [|c df IH]; intros df'; simpl.
  - intros _ [|i] c Hc; discriminate.
  - destruct (infer_column c) as [c'|e] eqn:Hc'; [|discriminate].
    destruct (infer_types df) as [r|e]; [|discriminate].
    intros [= <-] [|i] d Hd; simpl in *.
    + injection Hd as <-. now exists c'.
    + now apply (IH r eq_refl).
Qed.

(** [text_labels df]: every label of [df] is a text. *)
Definition text_labels (df : dataframe) : Prop :=
  Forall (fun c => exists name, col_name c = LStr name) df.

(** With texts for labels the loop ends without an exception. *)
Lemma infer_types_total (df : dataframe) :
  text_labels df -> exists df', infer_types df = Ok df'.
Proof.
  induction 1 as [|c df [name Hn] _ [df' IH]]; simpl; [eauto|].
  destruct (infer_column_total c name Hn) as [c' ->]. rewrite IH. eauto.
Qed.

Lemma escape_quotes_nth (df : dataframe) (i : nat) (c : column) :
  nth_error df i = Some c -> nth_error (escape_quotes df) i = Some (escaped c).
Proof.
  intros Hc. unfold escape_quotes. now rewrite nth_error_map, Hc.
Qed.

Lemma re_sub_char_double_quotes (s : str) :
  re_sub_char DQUOTE [DQUOTE; DQUOTE] s = double_quotes s.
Proof.
  induction s as [|a s IH]; simpl; [reflexivity|].
  destruct (a =? DQUOTE)%N; simpl; now rewrite IH.
Qed.

End LoaderFacts.

Section LoaderClaims.
Import Loader.
Context `{Library}.

Lemma escaped_label (c : column) : col_name (escaped c) = col_name c.
Proof. unfold escaped. now destruct (is_object c). Qed.

Lemma escaped_length (c : column) :
  length (col_cells (escaped c)) = length (col_cells c).
Proof.
  unfold escaped. destruct (is_object c); [|reflexivity].
  simpl. apply length_map.
Qed.

(** C2. A column whose name contains "date" in any letter case becomes a
    timestamp column, and lines 35-36 end on it without an exception.
    Value by value: a missing value stays missing, a timestamp stays, and
    a text or a number becomes the timestamp the library's parser reads in
    it, or null when the parser reads none. The values parsed are those the
    step receives, after lines 31-32. The column stands at its place in
    every table the type inference returns. *)
Theorem date_columns_coerced (df0 : dataframe) (i : nat) (c : column) (name : str) :
  nth_error df0 i = Some c ->
  col_name c = LStr name ->
  is_date_name name = true ->
  exists c',
    infer_column (escaped c) = Ok c' /\
    col_name c' = col_name c /\
    col_dtype c' = DDatetime /\
    length (col_cells c') = length (col_cells c) /\
    (forall j v,
       nth_error (col_cells (escaped c)) j = Some v ->
       nth_error (col_cells c') j =
       Some (match v with
             | Null => Null
             | Stamp t => Stamp t
             | Text _ | Number _ =>
                 match parse_timestamp (col_cells (escaped c)) v with
                 | Some t => Stamp t
                 | None => Null
                 end
             end)) /\
    (forall df,
       infer_types (escape_quotes df0) = Ok df -> nth_error df i = Some c').
Proof.
  intros Hc Hl Hdate.
  assert (Hname : col_name (escaped c) = LStr name).
  { now rewrite escaped_label. }
  assert (Hstep : infer_column (escaped c) = Ok (to_datetime_coerce (escaped c))).
  { now rewrite (infer_column_text_label _ name Hname), Hdate. }
  exists (to_datetime_coerce (escaped c)).
  split; [exact Hstep|]. split; [simpl; congruence|]. split; [reflexivity|].
  split; [simpl; rewrite length_map; apply escaped_length|]. split.
  - intros j v Hv. simpl. rewrite nth_error_map, Hv. simpl.
    unfold to_datetime_cell, timestamp_of. now destruct v.
  - intros df Hdf.
    destruct (infer_types_nth _ _ Hdf i (escaped c) (escape_quotes_nth df0 i c Hc))
      as (c' & Hc' & Hi).
    rewrite Hstep in Hc'. now injection Hc' as <-.
Qed.

(** On a column of dtype object whose name is a text without "date", the
    numeric conversion of lines 37-41 is all or nothing over the values it
    receives: when each is missing, a number or a text that parses, the
    column becomes numeric; when one does not parse, the column is returned
    as it was received. No exception leaves the step. *)
Lemma numeric_step (c : column) (name : str) :
  col_name c = LStr name ->
  is_date_name name = false ->
  is_object c = true ->
  infer_column c =
    Ok (if forallb numeric_parseable (col_cells c)
        then {| col_name := col_name c;
                col_dtype := DNumeric;
                col_cells := map numeric_value (col_cells c) |}
        else c).
Proof.
  intros Hn Hdate Hobj.
  rewrite (infer_column_text_label c name Hn), Hdate, Hobj. unfold to_numeric.
  destruct (forallb numeric_parseable (col_cells c)) eqn:Hp.
  - now rewrite (to_numeric_cells_all _ Hp).
  - destruct (to_numeric_cells_some _ Hp) as (e & -> & He).
    destruct (exn_cls e); congruence.
Qed.

(** The step never sees a missing value: line 32 has made it the text
    "nan". Where [pd.to_numeric] does not read that text as a number, one
    missing value is enough to keep the whole column as text. *)
Lemma missing_blocks_conversion (c : column) (name : str) :
  col_name c = LStr name ->
  is_date_name name = false ->
  is_object c = true ->
  In Null (col_cells c) ->
  parse_numeric (lit "nan") = None ->
  infer_column (escaped c) = Ok (escaped c).
Proof.
  intros Hn Hdate Hobj Hin Hnan.
  assert (Hname : col_name (escaped c) = LStr name) by now rewrite escaped_label.
  assert (Hobj' : is_object (escaped c) = true).
  { unfold escaped. now rewrite Hobj. }
  rewrite (numeric_step (escaped c) name Hname Hdate Hobj').
  assert (Hp : forallb numeric_parseable (col_cells (escaped c)) = false);
    [|now rewrite Hp].
  destruct (forallb numeric_parseable (col_cells (escaped c))) eqn:E; [|reflexivity].
  rewrite forallb_forall in E.
  assert (Ht : In (Text (lit "nan")) (col_cells (escaped c))).
  { unfold escaped. rewrite Hobj. simpl. apply in_map_iff. now exists Null. }
  specialize (E _ Ht). simpl in E. now rewrite Hnan in E.
Qed.

(** C6. A file whose name ends neither in ".csv" nor in ".xlsx" is
    refused at once: the loader shows the unsupported-format message and
    returns [None] three times; no reader is called. *)
Theorem unsupported_format (file : uploaded_file) :
  endswith (file_name file) (lit ".csv") = false ->
  endswith (file_name file) (lit ".xlsx") = false ->
  preprocess_and_save file =
    ([StError (lit "Unsupported file format. Please upload a CSV or Excel file.")],
     (None, None, None)).
Proof.
  intros Hcsv Hxlsx. unfold preprocess_and_save, try_body.
  now rewrite Hcsv, Hxlsx.
Qed.

Lemma frame_read_try_body (file : uploaded_file) (df0 : dataframe) :
  frame_read file df0 ->
  try_body file = bind (process df0) (fun r => Ok ([], r)).
Proof.
  unfold try_body. intros [[Hcsv Hr]|(Hcsv & Hxlsx & Hr)].
  - now rewrite Hcsv, Hr.
  - now rewrite Hcsv, Hxlsx, Hr.
Qed.

(** C7. When a step of the ingestion raises, the loader catches the
    exception, shows "Error processing file: " followed by its message, and
    returns [None] three times. *)
Theorem ingestion_error_reported (file : uploaded_file) (e : exn) :
  step_raises file e ->
  preprocess_and_save file =
    ([StError (lit "Error processing file: " ++ exn_msg e)], (None, None, None)).
Proof.
  intros Hr. unfold preprocess_and_save.
  assert (He : try_body file = Raise e); [|now rewrite He].
  destruct Hr as [Hcsv Hr | Hcsv Hxlsx Hr | df0 Hf Hi | df0 df Hf Hi Ht
                 | df0 df p Hf Hi Ht Hw].
  - unfold try_body. now rewrite Hcsv, Hr.
  - unfold try_body. now rewrite Hcsv, Hxlsx, Hr.
  - rewrite (frame_read_try_body file df0 Hf). unfold process. now rewrite Hi.
  - rewrite (frame_read_try_body file df0 Hf). unfold process.
    rewrite Hi. simpl. now rewrite Ht.
  - rewrite (frame_read_try_body file df0 Hf). unfold process.
    rewrite Hi. simpl. rewrite Ht. simpl. now rewrite Hw.
Qed.

(** The triple is whole or empty: the loader returns the path, the names
    and the table together, or [None] three times. *)
Lemma loaded_all_or_nothing (file : uploaded_file) :
  snd (preprocess_and_save file) = nothing \/
  exists temp_path df,
    snd (preprocess_and_save file) = (Some temp_path, Some (columns df), Some df).
Proof.
  unfold preprocess_and_save, try_body, process.
  destruct (endswith (file_name file) (lit ".csv")).
  - destruct (read_csv file na_values) as [df0|e]; simpl; [|now left].
    destruct (infer_types (escape_quotes df0)) as [df|e]; simpl; [|now left].
    destruct NamedTemporaryFile as [p|e]; simpl; [|now left].
    destruct (write_text p (to_csv df)) as [[]|e]; simpl; [|now left].
    right. now exists p, df.
  - destruct (endswith (file_name file) (lit ".xlsx")); [|now left].
    destruct (read_excel file na_values) as [df0|e]; simpl; [|now left].
    destruct (infer_types (escape_quotes df0)) as [df|e]; simpl; [|now left].
    destruct NamedTemporaryFile as [p|e]; simpl; [|now left].
    destruct (write_text p (to_csv df)) as [[]|e]; simpl; [|now left].
    right. now exists p, df.
Qed.

(** C9. Lines 31-32 rewrite every column of dtype object: each value
    becomes its text with every double quote written twice. The table that
    is serialized afterwards is the one the type inference builds from the
    rewritten columns. *)
Theorem quotes_doubled (df0 : dataframe) (i : nat) (c : column) :
  nth_error df0 i = Some c ->
  is_object c = true ->
  nth_error (escape_quotes df0) i =
    Some {| col_name := col_name c;
            col_dtype := DObject;
            col_cells := map (fun v => Text (double_quotes (text_of v))) (col_cells c) |} /\
  forall r, process df0 = Ok r ->
    exists df temp_path,
      infer_types (escape_quotes df0) = Ok df /\
      write_text temp_path (to_csv df) = Ok tt /\
      r = (Some temp_path, Some (columns df), Some df).
Proof.
  intros Hc Hobj. split.
  - rewrite (escape_quotes_nth df0 i c Hc). unfold escaped. rewrite Hobj.
    unfold escape_column. do 2 f_equal.
    apply map_ext. intros v. unfold text_of.
    destruct v as [|s|x|t]; unfold replace_quotes, astype_str;
      now rewrite re_sub_char_double_quotes.
  - unfold process. intros r.
    destruct (infer_types (escape_quotes df0)) as [df|e]; simpl; [|discriminate].
    destruct NamedTemporaryFile as [p|e]; simpl; [|discriminate].
    destruct (write_text p (to_csv df)) as [[]|e] eqn:Hw; simpl; [|discriminate].
    intros [= <-]. now exists df, p.
Qed.

(** A missing value of a column of dtype object does not stay missing:
    line 32 makes it the text "nan", whatever the library. *)
Lemma missing_becomes_text (df0 : dataframe) (i j : nat) (c : column) :
  nth_error df0 i = Some c ->
  is_object c = true ->
  nth_error (col_cells c) j = Some Null ->
  exists c',
    nth_error (escape_quotes df0) i = Some c' /\
    nth_error (col_cells c') j = Some (Text (lit "nan")).
Proof.
  intros Hc Hobj Hj. exists (escaped c).
  split; [now apply escape_quotes_nth|].
  unfold escaped. rewrite Hobj. simpl.
  now rewrite nth_error_map, Hj.
Qed.

End LoaderClaims.

(** ** The query pipeline *)

Section PipelineFacts.
Import Loader Pipeline.
Context `{Library}.

Lemma lstrip_spaces (s : str) : forallb isspace s = true -> lstrip s = [].
Proof.
  induction s as [|c s IH]; simpl; [reflexivity|].
  intros Hs. apply andb_true_iff in Hs as [Hc Hs]. rewrite Hc. now apply IH.
Qed.

Lemma strip_spaces (s : str) : forallb isspace s = true -> strip s = [].
Proof.
  intros Hs. unfold strip, rstrip. now rewrite (lstrip_spaces s Hs).
Qed.

Lemma no_block_search (s : str) : ~ has_block s -> search s = None.
Proof.
  intros Hn. pose proof (search_spec s) as Hs.
  destruct (search s) as [g|]; [|reflexivity].
  exfalso. apply Hn. destruct Hs as (i & j & (Ho & [Hf _] & _) & _).
  exists i. split; [exact Ho|]. now exists j.
Qed.

(** C5. When the response holds no fenced sql block, the extractor
    returns [None] and the handler shows the warning and then the raw
    response: after the call of the model it executes no SQL and shows no
    error, and the connection is the one it started with. *)
Theorem no_sql_found (agent : GeminiChatWrapper) (user_query response : str)
    (w : world) :
  is_empty (strip user_query) = false ->
  run agent (make_prompt user_query) = Ok response ->
  ~ has_block response ->
  extract response = None /\
  submit_query agent user_query w =
    {| gemini_key := gemini_key w;
       con := con w;
       trace := trace w ++
         [ StSpinner (lit "Processing with Gemini...");
           ModelCall (make_prompt user_query);
           StWarning (lit "Gemini did not return a valid SQL query. Try rephrasing.");
           StMarkdown response ] |}.
Proof.
  intros Hq Hrun Hnb.
  assert (He : extract response = None).
  { unfold extract. now rewrite (no_block_search response Hnb). }
  split; [exact He|].
  unfold submit_query. rewrite Hq, Hrun, He.
  unfold emit; simpl. now rewrite <- !app_assoc.
Qed.

(** C10. A question that is empty or made of whitespace only is answered
    by one warning: the model is not called, no SQL is executed, and the
    session key and the connection stay as they were. *)
Theorem blank_query_warned (agent : GeminiChatWrapper) (user_query : str)
    (w : world) :
  forallb isspace user_query = true ->
  submit_query agent user_query w =
    {| gemini_key := gemini_key w;
       con := con w;
       trace := trace w ++ [StWarning (lit "Please enter a valid query.")] |}.
Proof.
  intros Hs. unfold submit_query.
  now rewrite (strip_spaces user_query Hs).
Qed.

End PipelineFacts.

(** ** More about the extractor *)

Section ExtractorMore.

Lemma contains_occurs (p s : str) :
  contains p s = true <-> exists k, startswith (skipn k s) p = true.
Proof.
  split.
  - induction s as [|c s IH]; simpl.
    + rewrite orb_false_r. intros Hp. now exists 0.
    + intros Hc. apply orb_true_iff in Hc as [Hc|Hc].
      * now exists 0.
      * destruct (IH Hc) as [k Hk]. now exists (S k).
  - intros [k Hk]. revert k Hk; induction s as [|c s IH]; intros k Hk.
    + rewrite skipn_nil in Hk. simpl. now rewrite Hk.
    + destruct k as [|k]; simpl in *.
      * now rewrite Hk.
      * rewrite (IH k Hk). apply orb_true_r.
Qed.

Lemma lstrip_skipn (s : str) : exists a, lstrip s = skipn a s.
Proof.
  induction s as [|c s [a IH]]; simpl.
  - now exists 0.
  - destruct (isspace c); [now exists (S a) | now exists 0].
Qed.

Lemma rstrip_firstn (s : str) : exists b, rstrip s = firstn b s.
Proof.
  unfold rstrip. destruct (lstrip_skipn (rev s)) as [a Ha]. rewrite Ha.
  exists (length s - a).
  now rewrite skipn_rev, rev_involutive.
Qed.

(** An occurrence in the first [j] characters of [u] is an occurrence in
    [u]. *)
Lemma occurs_in_firstn (p u : str) (j k : nat) :
  p <> [] ->
  startswith (skipn k (firstn j u)) p = true ->
  startswith (skipn k u) p = true /\ k + length p <= j.
Proof.
  intros Hp Ho.
  pose proof (occurs_at_length p (firstn j u) k Hp Ho) as Hlen.
  rewrite length_firstn in Hlen.
  assert (Hk : k <= length (firstn j u)).
  { rewrite length_firstn. lia. }
  split; [|lia].
  rewrite <- (firstn_skipn j u) at 1.
  rewrite skipn_app. replace (k - length (firstn j u)) with 0 by lia.
  simpl skipn at 2.
  rewrite (startswith_split _ _ Ho), <- app_assoc.
  apply startswith_app.
Qed.

(** The group of a match holds no fence. *)
Lemma search_no_fence (s g : str) (k : nat) :
  search s = Some g -> startswith (skipn k g) fence = false.
Proof.
  intros Hs. pose proof (search_spec s) as Hspec. rewrite Hs in Hspec.
  destruct Hspec as (i & j & (_ & [_ Hmin] & _) & ->).
  unfold interior.
  destruct (startswith (skipn k (firstn j (skipn (i + length opener) s))) fence)
    eqn:E; [|reflexivity].
  apply occurs_in_firstn in E as [Ho Hk]; [|discriminate].
  rewrite Hmin in Ho; [discriminate|]. simpl in Hk. lia.
Qed.

(** X1. The statement the extractor returns holds no triple backtick. *)
Theorem extract_no_fence (response sql : str) :
  extract response = Some sql -> contains fence sql = false.
Proof.
  unfold extract. destruct (search response) as [g|] eqn:Hs; [|discriminate].
  intros [= <-].
  destruct (contains fence (strip g)) eqn:Hc; [|reflexivity].
  apply contains_occurs in Hc as [k Hk].
  unfold strip in Hk.
  destruct (rstrip_firstn (lstrip g)) as [b Hb]. rewrite Hb in Hk.
  destruct (lstrip_skipn g) as [a Ha]. rewrite Ha in Hk.
  apply occurs_in_firstn in Hk as [Hk _]; [|discriminate].
  rewrite skipn_skipn in Hk.
  now rewrite (search_no_fence response g (k + a) Hs) in Hk.
Qed.

(** X2. The statement the extractor returns neither begins nor ends with
    a whitespace character. *)
Theorem extract_trimmed (response sql : str) :
  extract response = Some sql ->
  match sql with [] => True | c :: _ => isspace c = false end /\
  match rev sql with [] => True | c :: _ => isspace c = false end.
Proof.
  unfold extract. destruct (search response) as [g|]; [|discriminate].
  intros [= <-]. unfold strip. split.
  - pose proof (lstrip_head g) as Hh.
    destruct (lstrip g) as [|c t]; [exact I|].
    now rewrite (rstrip_cons_keep c t Hh).
  - unfold rstrip. rewrite rev_involutive. apply lstrip_head.
Qed.

Lemma startswith_space_fence (c : char) (s : str) :
  isspace c = true -> startswith (c :: s) fence = false.
Proof.
  intros Hc.
  change fence with [96%N; 96%N; 96%N]. cbn [startswith].
  destruct (96 =? c)%N eqn:E; [|reflexivity].
  apply N.eqb_eq in E. subst c. discriminate Hc.
Qed.

Lemma first_fence_after_spaces (ws post : str) :
  forallb isspace ws = true ->
  first_at fence (ws ++ fence ++ post) (length ws).
Proof.
  intros Hws. split.
  - unfold occurs_at. rewrite skipn_app, skipn_all, Nat.sub_diag.
    cbn [skipn app]. apply startswith_app.
  - induction ws as [|c ws IH]; intros k Hk; simpl in Hk; [lia|].
    simpl in Hws. apply andb_true_iff in Hws as [Hc Hws].
    destruct k as [|k].
    + apply (startswith_space_fence c _ Hc).
    + simpl. apply IH; [exact Hws | lia].
Qed.

Lemma extract_blank_block_aux (ws post : str) :
  forallb isspace ws = true ->
  extract (opener ++ ws ++ fence ++ post) = Some [].
Proof.
  intros Hws. unfold extract.
  assert (Hsk : skipn (0 + length opener) (opener ++ ws ++ fence ++ post)
                = ws ++ fence ++ post) by reflexivity.
  assert (Hb : first_block (opener ++ ws ++ fence ++ post) 0 (length ws)).
  { unfold first_block. rewrite Hsk. split; [|split].
    - unfold occurs_at. apply startswith_app.
    - apply (first_fence_after_spaces ws post Hws).
    - intros k Hk. lia. }
  rewrite (search_first_block _ _ _ Hb). unfold interior. rewrite Hsk.
  rewrite firstn_app, firstn_all, Nat.sub_diag. simpl firstn. rewrite app_nil_r.
  unfold strip, rstrip. now rewrite (lstrip_spaces ws Hws).
Qed.

(** X3. A response that opens with an sql block whose interior is blank
    gives the empty statement, not [None]; what follows the block does not
    matter. *)
Theorem extract_blank_block (ws post : str) :
  forallb isspace ws = true ->
  extract (opener ++ ws ++ fence ++ post) = Some [] /\
  has_block (opener ++ ws ++ fence ++ post).
Proof.
  intros Hws. split; [now apply extract_blank_block_aux|].
  exists 0. split; [apply startswith_app|].
  exists (length ws).
  change (skipn (0 + length opener) (opener ++ ws ++ fence ++ post))
    with (ws ++ fence ++ post).
  apply (first_fence_after_spaces ws post Hws).
Qed.

End ExtractorMore.

(** ** More about the loader *)

Section LoaderMore.
Import Loader.
Context `{Library}.

Definition is_text (c : cell) : bool :=
  match c with Text _ => true | _ => false end.

(** The lengths of the columns, in order. *)
Definition heights (df : dataframe) : list nat :=
  map (fun c => length (col_cells c)) df.

(** [a] is [b] or its ASCII capital. *)
Definition same_letter (a b : char) : Prop := a = b \/ (a + 32)%N = b.

Lemma escaped_shape (c : column) :
  col_name (escaped c) = col_name c /\
  length (col_cells (escaped c)) = length (col_cells c).
Proof.
  unfold escaped. destruct (is_object c); [|now split].
  simpl. now rewrite length_map.
Qed.

Lemma escape_quotes_shape (df : dataframe) :
  columns (escape_quotes df) = columns df /\
  heights (escape_quotes df) = heights df.
Proof.
  unfold columns, heights, escape_quotes. rewrite !map_map.
  split; apply map_ext; intros c; apply (escaped_shape c).
Qed.

Lemma infer_types_shape (df df' : dataframe) :
  infer_types df = Ok df' ->
  columns df' = columns df /\ heights df' = heights df.
Proof.
  revert df'; induction df as [|c df IH]; intros df'; simpl.
  - now intros [= <-].
  - destruct (infer_column c) as [c'|e] eqn:Hc'; [|discriminate].
    destruct (infer_column_shape c c' Hc') as [Hn Hl].
    destruct (infer_types df) as [r|e]; [|discriminate].
    intros [= <-]. destruct (IH r eq_refl) as [Hcols Hh].
    unfold columns, heights in *. simpl. now rewrite Hn, Hl, Hcols, Hh.
Qed.

(** X4. A load ends in one of two ways: one error message and [None]
    three times, or no message and the path, the names and the table
    together, the names being those of the table. *)
Theorem loader_outcomes (file : uploaded_file) :
  (exists m, preprocess_and_save file = ([StError m], (None, None, None))) \/
  (exists temp_path df,
     preprocess_and_save file = ([], (Some temp_path, Some (columns df), Some df))).
Proof.
  unfold preprocess_and_save, try_body, process.
  destruct (endswith (file_name file) (lit ".csv")).
  - destruct (read_csv file na_values) as [df0|e]; simpl; [|left; eauto].
    destruct (infer_types (escape_quotes df0)) as [df|e]; simpl; [|left; eauto].
    destruct NamedTemporaryFile as [p|e]; simpl; [|left; eauto].
    destruct (write_text p (to_csv df)) as [[]|e]; simpl; [|left; eauto].
    right. now exists p, df.
  - destruct (endswith (file_name file) (lit ".xlsx")); [|left; eauto].
    destruct (read_excel file na_values) as [df0|e]; simpl; [|left; eauto].
    destruct (infer_types (escape_quotes df0)) as [df|e]; simpl; [|left; eauto].
    destruct NamedTemporaryFile as [p|e]; simpl; [|left; eauto].
    destruct (write_text p (to_csv df)) as [[]|e]; simpl; [|left; eauto].
    right. now exists p, df.
Qed.

(** X5. When the reader, the temporary file and the write all succeed,
    the load succeeds without a message; the table returned has the column
    names of the table that was read, in the same order, and every column
    keeps its number of rows. *)
Theorem loader_success (file : uploaded_file) (df0 df : dataframe) (temp_path : str) :
  frame_read file df0 ->
  infer_types (escape_quotes df0) = Ok df ->
  NamedTemporaryFile = Ok temp_path ->
  write_text temp_path (to_csv df) = Ok tt ->
  preprocess_and_save file = ([], (Some temp_path, Some (columns df0), Some df)) /\
  columns df = columns df0 /\
  heights df = heights df0.
Proof.
  intros Hf Hdf Ht Hw.
  destruct (infer_types_shape _ _ Hdf) as [Hc Hh].
  destruct (escape_quotes_shape df0) as [Hc0 Hh0].
  repeat split; try congruence.
  unfold preprocess_and_save. rewrite (frame_read_try_body file df0 Hf).
  unfold process. rewrite Hdf. simpl. rewrite Ht. simpl. rewrite Hw. simpl.
  now rewrite Hc, Hc0.
Qed.

(** X6. A column that is not of dtype object and whose name is a text
    without "date" goes through lines 31-41 untouched: it stands unchanged,
    at its place, in every table the type inference returns. *)
Theorem other_columns_untouched (df0 df : dataframe) (i : nat) (c : column)
    (name : str) :
  nth_error df0 i = Some c ->
  is_object c = false ->
  col_name c = LStr name ->
  is_date_name name = false ->
  infer_types (escape_quotes df0) = Ok df ->
  nth_error df i = Some c.
Proof.
  intros Hc Hobj Hn Hdate Hdf.
  destruct (infer_types_nth _ _ Hdf i (escaped c) (escape_quotes_nth df0 i c Hc))
    as (c' & Hc' & Hi).
  unfold escaped in Hc'. rewrite Hobj in Hc'.
  rewrite (infer_column_text_label c name Hn), Hdate, Hobj in Hc'.
  now injection Hc' as <-.
Qed.

(** X7. After lines 31-32 a column of dtype object holds texts only: no
    missing value, number or timestamp is left in it. *)
Theorem object_columns_hold_text (df0 : dataframe) (c : column) :
  In c (escape_quotes df0) ->
  is_object c = true ->
  forallb is_text (col_cells c) = true.
Proof.
  unfold escape_quotes. intros Hin Hobj.
  apply in_map_iff in Hin as (c0 & <- & _).
  destruct (is_object c0) eqn:Hobj0; [|congruence].
  simpl. apply forallb_forall. intros v Hv.
  apply in_map_iff in Hv as (u & <- & _). now destruct u.
Qed.

Lemma lower_app (a b : str) : lower (a ++ b) = lower a ++ lower b.
Proof. unfold lower. apply flat_map_app. Qed.

Lemma contains_middle (p a b : str) : contains p (a ++ p ++ b) = true.
Proof.
  apply contains_occurs. exists (length a).
  rewrite skipn_app, skipn_all, Nat.sub_diag. cbn [skipn app].
  apply startswith_app.
Qed.

(** X8. The test of line 35 ignores the letter case and the position: a
    name that holds the letters d, a, t, e in a row, each small or capital,
    is a date name, whatever stands before and after them. *)
Theorem date_name_any_case (pre post : str) (d a t e : char) :
  same_letter d 100%N -> same_letter a 97%N ->
  same_letter t 116%N -> same_letter e 101%N ->
  is_date_name (pre ++ [d; a; t; e] ++ post) = true.
Proof.
  intros Hd Ha Ht He. unfold is_date_name. rewrite !lower_app.
  assert (Hl : lower [d; a; t; e] = lit "date").
  { unfold same_letter in *.
    assert (Ed : d = 100%N \/ d = 68%N) by lia.
    assert (Ea : a = 97%N \/ a = 65%N) by lia.
    assert (Et : t = 116%N \/ t = 84%N) by lia.
    assert (Ee : e = 101%N \/ e = 69%N) by lia.
    destruct Ed as [-> | ->], Ea as [-> | ->], Et as [-> | ->], Ee as [-> | ->];
      reflexivity. }
  rewrite Hl. apply contains_middle.
Qed.

Lemma endswith_split (s p : str) :
  endswith s p = true -> exists pre, s = pre ++ p.
Proof.
  unfold endswith. intros He. apply andb_true_iff in He as [_ He].
  apply eqb_eq in He. exists (firstn (length s - length p) s).
  set (n := length s - length p) in *.
  rewrite <- He. symmetry. apply firstn_skipn.
Qed.

Lemma endswith_mismatch (base suffix p : str) :
  (forall x y, rev suffix ++ x <> rev p ++ y) ->
  endswith (base ++ suffix) p = false.
Proof.
  intros Hne. destruct (endswith (base ++ suffix) p) eqn:E; [|reflexivity].
  apply endswith_split in E as [pre E].
  apply (f_equal (@rev char)) in E. rewrite !rev_app_distr in E.
  now apply Hne in E.
Qed.

(** X9. The extension test is by letter case: a file whose name ends in
    ".CSV", ".XLSX" or ".xls" is refused as unsupported, and no reader is
    called. *)
Theorem capital_extension_refused (base suffix : str) (bytes : list Byte.byte) :
  suffix = lit ".CSV" \/ suffix = lit ".XLSX" \/ suffix = lit ".xls" ->
  preprocess_and_save {| file_name := base ++ suffix; file_bytes := bytes |} =
    ([StError (lit "Unsupported file format. Please upload a CSV or Excel file.")],
     (None, None, None)).
Proof.
  intros Hs. unfold preprocess_and_save, try_body. simpl file_name.
  assert (Hcsv : endswith (base ++ suffix) (lit ".csv") = false).
  { apply endswith_mismatch. intros x y.
    destruct Hs as [-> | [-> | ->]]; discriminate. }
  assert (Hxlsx : endswith (base ++ suffix) (lit ".xlsx") = false).
  { apply endswith_mismatch. intros x y.
    destruct Hs as [-> | [-> | ->]]; discriminate. }
  now rewrite Hcsv, Hxlsx.
Qed.

Lemma count_double_quotes (s : str) :
  count_occ N.eq_dec (double_quotes s) DQUOTE = 2 * count_occ N.eq_dec s DQUOTE.
Proof.
  induction s as [|c s IH]; [reflexivity|].
  change (double_quotes (c :: s))
    with ((if (c =? DQUOTE)%N then [DQUOTE; DQUOTE] else [c]) ++ double_quotes s).
  rewrite count_occ_app. unfold char in *. rewrite IH.
  destruct (N.eqb_spec c DQUOTE) as [-> | Hne].
  - rewrite count_occ_cons_eq by reflexivity.
    rewrite !count_occ_cons_eq by reflexivity. simpl count_occ. lia.
  - rewrite (count_occ_cons_neq N.eq_dec s Hne).
    rewrite (count_occ_cons_neq N.eq_dec [] Hne). simpl count_occ. lia.
Qed.

(** The records of the temporary CSV are the rows of the table: as
    many records as the table has rows, each with one field per column,
    and the field of column [k] in record [i] is the cell [i] of that
    column. *)
Theorem rows_transpose (df : dataframe) :
  length (rows df) = nrows df /\
  (forall r, In r (rows df) -> length r = length df) /\
  (forall i k c v,
     i < nrows df ->
     nth_error df k = Some c ->
     nth_error (col_cells c) i = Some v ->
     exists r, nth_error (rows df) i = Some r /\ nth_error r k = Some v).
Proof.
  unfold rows. split; [|split].
  - now rewrite length_map, length_seq.
  - intros r Hr. apply in_map_iff in Hr as (i & <- & _).
    unfold row_at. apply length_map.
  - intros i k c v Hi Hc Hv. exists (row_at df i). split.
    + rewrite nth_error_map, nth_error_seq.
      destruct (Nat.ltb_spec i (nrows df)); [reflexivity | lia].
    + unfold row_at. rewrite nth_error_map, Hc. simpl.
      now rewrite (nth_error_nth _ _ Null Hv).
Qed.

Lemma nrows_heights (df df' : dataframe) :
  heights df = heights df' -> nrows df = nrows df'.
Proof.
  destruct df as [|c df], df' as [|c' df']; simpl; try discriminate; auto.
  now intros [= Hh _].
Qed.

Lemma join_split (sep : str) (fields : list str) (k : nat) (f : str) :
  nth_error fields k = Some f ->
  exists before after, join sep fields = before ++ f ++ after.
Proof.
  revert k; induction fields as [|f0 fs IH]; intros k Hk.
  - now destruct k.
  - destruct k as [|k]; simpl in Hk.
    + injection Hk as ->. destruct fs as [|g fs].
      * exists [], []. simpl. now rewrite app_nil_r.
      * exists [], (sep ++ join sep (g :: fs)). reflexivity.
    + destruct fs as [|g fs]; [now destruct k|].
      destruct (IH k Hk) as (before & after & Hj).
      exists (f0 ++ sep ++ before), after.
      change (join sep (f0 :: g :: fs)) with (f0 ++ sep ++ join sep (g :: fs)).
      rewrite Hj. now rewrite <- !app_assoc.
Qed.

(** A cell of the table that is serialized stands, quoted, in the text of
    the file. *)
Lemma to_csv_holds_cell (df : dataframe) (i k : nat) (c : column) (v : cell) :
  i < nrows df ->
  nth_error df k = Some c ->
  nth_error (col_cells c) i = Some v ->
  exists before after,
    to_csv df = before ++ quote_field (cell_text v) ++ after.
Proof.
  intros Hi Hc Hv.
  destruct (proj2 (proj2 (rows_transpose df)) i k c v Hi Hc Hv) as (r & Hr & Hk).
  destruct (nth_error_split _ _ Hr) as (l1 & l2 & Hrows & _).
  assert (Hf : nth_error (map quote_field (map cell_text r)) k
               = Some (quote_field (cell_text v))).
  { now rewrite !nth_error_map, Hk. }
  destruct (join_split [COMMA] _ k _ Hf) as (a & b & Hj).
  assert (Hline : csv_line (map cell_text r)
                  = a ++ quote_field (cell_text v) ++ b ++ linesep).
  { unfold csv_line. rewrite Hj. now rewrite <- !app_assoc. }
  unfold to_csv. set (line := fun r0 : list cell => csv_line (map cell_text r0)).
  exists (csv_line (map label_text (columns df)) ++ flat_map line l1 ++ a),
         (b ++ linesep ++ flat_map line l2).
  rewrite Hrows, flat_map_app.
  change (flat_map line (r :: l2)) with (line r ++ flat_map line l2).
  unfold line at 2. rewrite Hline. now rewrite <- !app_assoc.
Qed.

(** X10. A text value is escaped twice on its way to the temporary CSV.
    For a cell of a column of dtype object that the type inference leaves
    as text, the file the loader writes holds the field made of a quote,
    the text of the value with each of its double quotes written four
    times, and a quote: line 32 doubles the quotes and the QUOTE_ALL writer
    of line 45 doubles them again. *)
Theorem quotes_written_fourfold (df0 df : dataframe) (k i : nat) (c : column)
    (v : cell) (temp_path : str) :
  nth_error df0 k = Some c ->
  is_object c = true ->
  nth_error (col_cells c) i = Some v ->
  i < nrows df0 ->
  infer_types (escape_quotes df0) = Ok df ->
  nth_error df k = Some (escaped c) ->
  NamedTemporaryFile = Ok temp_path ->
  write_text temp_path (to_csv df) = Ok tt ->
  process df0 = Ok (Some temp_path, Some (columns df), Some df) /\
  (exists before after,
     to_csv df =
       before ++ [DQUOTE] ++ double_quotes (double_quotes (text_of v)) ++ [DQUOTE]
       ++ after) /\
  count_occ N.eq_dec (double_quotes (double_quotes (text_of v))) DQUOTE
    = 4 * count_occ N.eq_dec (text_of v) DQUOTE.
Proof.
  intros Hc Hobj Hv Hi Hdf Hk Ht Hw. split; [|split].
  - unfold process. rewrite Hdf. simpl. rewrite Ht. simpl. now rewrite Hw.
  - assert (Hcell : nth_error (col_cells (escaped c)) i
                    = Some (Text (double_quotes (text_of v)))).
    { unfold escaped. rewrite Hobj. simpl. rewrite nth_error_map, Hv. simpl.
      f_equal. unfold text_of.
      destruct v as [|s|x|t]; unfold replace_quotes, astype_str;
        now rewrite re_sub_char_double_quotes. }
    assert (Hrows : i < nrows df).
    { destruct (infer_types_shape _ _ Hdf) as [_ Hh].
      destruct (escape_quotes_shape df0) as [_ Hh0].
      rewrite (nrows_heights df df0); [exact Hi | congruence]. }
    destruct (to_csv_holds_cell df i k (escaped c) _ Hrows Hk Hcell)
      as (before & after & Hcsv).
    exists before, after. rewrite Hcsv. unfold quote_field, cell_text.
    rewrite re_sub_char_double_quotes. now rewrite <- !app_assoc.
  - rewrite !count_double_quotes. lia.
Qed.

End LoaderMore.

(** ** The page (lines 53-107) *)

Module App.
Import Loader Pipeline.
Section Defs.
Context `{Library}.

(** What the user has entered when the script runs: the key field, the
    uploaded file, the question, and whether the button was pressed. *)
Record inputs := {
  key_input : str;
  uploaded : option uploaded_file;
  user_query : str;
  submit_clicked : bool
}.

(** What a run puts on the page, in order; [Shown] wraps the messages of
    the loader and of the handler. *)
Inductive page_event :=
| StTitle (s : str)
| StHeader (s : str)
| StTextInput (label : str)
| StFileUploader (label : str)
| StWrite (s : str)
| StWriteList (s : str) (l : list label)
| StTable (df : dataframe)
| StTextArea (label : str)
| StInfo (s : str)
| StButton (label : str)
| Shown (e : event).

(** How a run ends: at the last line, or at an exception no handler
    catches. *)
Inductive ending :=
| Completed
| Uncaught (e : exn).

(** Lines 55-62: the sidebar, from the key kept in [st.session_state]. *)
Definition sidebar (session_key : option str) (key : str)
  : option str * list page_event :=
  let head := [StHeader (lit "Gemini API Key");
               StTextInput (lit "Enter your Gemini API key:")] in
  if negb (is_empty key) then
    (Some key, head ++ [Shown (StSuccess (lit "API key saved!"))])
  else
    (session_key,
     head ++ [Shown (StWarning (lit "Please enter your Gemini API key to proceed."))]).

(** Lines 70-72. *)
Definition show_table (r : loaded) : list page_event :=
  match r with
  | (_, Some cols, Some df) =>
      [StWrite (lit "Uploaded Data:"); StTable df; StWriteList (lit "Columns:") cols]
  | _ => []
  end.

(** Lines 79-82: the question box, the hint and the button. *)
Definition question_box : list page_event :=
  [StTextArea (lit "Ask a question about your data:");
   StInfo ([128161%N] ++ lit " Example: What is the average sales by region?");
   StButton (lit "Submit Query")].

(** Lines 66-107, for a file and a key. *)
Definition with_file (file : uploaded_file) (key : str) (ui : inputs)
  : list page_event * ending :=
  let (msgs, r) := preprocess_and_save file in
  let page := map Shown msgs in
  match load_store r with
  | None => (page, Completed)
  | Some opened =>
      let page := page ++ show_table r in
      match opened with
      | Raise e => (page, Uncaught e)
      | Ok db =>
          let gemini_agent := new_agent key in
          let page := page ++ question_box in
          if submit_clicked ui then
            let w := submit_query gemini_agent (user_query ui)
                       {| gemini_key := Some key; con := db; trace := [] |} in
            (page ++ map Shown (trace w), Completed)
          else (page, Completed)
      end
  end.

(** Lines 53-107: one run of the script. The result is the key kept in
    the session, the page and the ending. *)
Definition script (session_key : option str) (ui : inputs)
  : option str * list page_event * ending :=
  let (key, side) := sidebar session_key (key_input ui) in
  let page := [StTitle ([128202%N] ++ lit " Gemini-Powered Data Analyst")] ++ side ++
              [StFileUploader (lit "Upload a CSV or Excel file")] in
  match uploaded ui, key with
  | Some file, Some k =>
      let (rest, e) := with_file file k ui in
      (key, page ++ rest, e)
  | _, _ => (key, page, Completed)
  end.

(** The key kept after a series of runs. *)
Definition session_after (session_key : option str) (runs : list inputs)
  : option str :=
  fold_left (fun k ui => fst (fst (script k ui))) runs session_key.

Definition is_model_call (e : event) : bool :=
  match e with ModelCall _ => true | _ => false end.

Definition is_sql_execute (e : event) : bool :=
  match e with SqlExecute _ => true | _ => false end.

(** The events of the loader and the handler on a page. *)
Definition shown_events (page : list page_event) : list event :=
  flat_map (fun p => match p with Shown e => [e] | _ => [] end) page.

End Defs.
End App.

(** ** More about the query pipeline *)

Section PipelineMore.
Import Loader Pipeline App.
Context `{Library}.

(** Unfold the record updates of the handler and flatten its trace. *)
Ltac flatten_trace :=
  unfold emit, set_con; cbn [con trace gemini_key];
  rewrite <- ?app_assoc; cbn [app].

(** X11. When the response holds an sql block and the engine runs it, the
    handler shows the statement, executes it as extracted, reports success
    and shows the result; the connection is the one the engine leaves. *)
Theorem query_executed (agent : GeminiChatWrapper) (question response sql : str)
    (w : world) (db : store) (res : table) :
  is_empty (strip question) = false ->
  run agent (make_prompt question) = Ok response ->
  extract response = Some sql ->
  con_execute (con w) sql = (db, Ok res) ->
  submit_query agent question w =
    {| gemini_key := gemini_key w;
       con := db;
       trace := trace w ++
         [ StSpinner (lit "Processing with Gemini...");
           ModelCall (make_prompt question);
           StCode sql;
           SqlExecute sql;
           StSuccess (lit "Query executed successfully!");
           StDataframe res ] |}.
Proof.
  intros Hq Hrun He Hx. unfold submit_query. rewrite Hq, Hrun, He.
  flatten_trace. rewrite Hx. flatten_trace. reflexivity.
Qed.

(** X12. When the engine raises on the extracted statement, the statement
    has been shown already, and the handler reports the engine's message
    under the words "Failed to run Gemini query: "; nothing is retried. *)
Theorem query_failed (agent : GeminiChatWrapper) (question response sql : str)
    (w : world) (db : store) (e : exn) :
  is_empty (strip question) = false ->
  run agent (make_prompt question) = Ok response ->
  extract response = Some sql ->
  con_execute (con w) sql = (db, Raise e) ->
  submit_query agent question w =
    {| gemini_key := gemini_key w;
       con := db;
       trace := trace w ++
         [ StSpinner (lit "Processing with Gemini...");
           ModelCall (make_prompt question);
           StCode sql;
           SqlExecute sql;
           StError (lit "Failed to run Gemini query: " ++ exn_msg e) ] |}.
Proof.
  intros Hq Hrun He Hx. unfold submit_query. rewrite Hq, Hrun, He.
  flatten_trace. rewrite Hx. flatten_trace. reflexivity.
Qed.

(** X13. When the call of the model raises, the handler reports the
    message and stops: no statement is shown or executed and the
    connection is untouched. *)
Theorem model_failed (agent : GeminiChatWrapper) (question : str) (w : world)
    (e : exn) :
  is_empty (strip question) = false ->
  run agent (make_prompt question) = Raise e ->
  submit_query agent question w =
    {| gemini_key := gemini_key w;
       con := con w;
       trace := trace w ++
         [ StSpinner (lit "Processing with Gemini...");
           ModelCall (make_prompt question);
           StError (lit "Failed to run Gemini query: " ++ exn_msg e) ] |}.
Proof.
  intros Hq Hrun. unfold submit_query. rewrite Hq, Hrun.
  flatten_trace. reflexivity.
Qed.

(** X14. Whatever the question, the model and the engine do, one
    submission keeps the session key, only adds to what was shown, calls
    the model at most once and executes at most one statement, and never
    executes a statement without having called the model; when it executes
    none the connection is untouched. *)
Theorem submit_query_bounds (agent : GeminiChatWrapper) (question : str)
    (w : world) :
  gemini_key (submit_query agent question w) = gemini_key w /\
  exists added,
    trace (submit_query agent question w) = trace w ++ added /\
    length (filter is_model_call added) <= 1 /\
    length (filter is_sql_execute added) <= length (filter is_model_call added) /\
    (filter is_sql_execute added = [] -> con (submit_query agent question w) = con w).
Proof.
  unfold submit_query.
  destruct (is_empty (strip question)).
  { split; [reflexivity|]. eexists. split; [reflexivity|]. simpl. auto. }
  destruct (run agent (make_prompt question)) as [response|e].
  2:{ split; [reflexivity|]. eexists. split.
      - flatten_trace. reflexivity.
      - simpl. auto. }
  destruct (extract response) as [sql|].
  2:{ split; [reflexivity|]. eexists. split.
      - flatten_trace. reflexivity.
      - simpl. auto. }
  flatten_trace.
  destruct (con_execute (con w) sql) as [db [res|e]].
  - split; [reflexivity|]. eexists. split.
    + flatten_trace. reflexivity.
    + simpl. repeat split; auto. discriminate.
  - split; [reflexivity|]. eexists. split.
    + flatten_trace. reflexivity.
    + simpl. repeat split; auto. discriminate.
Qed.

(** X15. A block with a blank interior is still run: the handler shows
    and executes the empty statement. *)
Theorem blank_block_executed (agent : GeminiChatWrapper) (question ws post : str)
    (w : world) :
  is_empty (strip question) = false ->
  run agent (make_prompt question) = Ok (opener ++ ws ++ fence ++ post) ->
  forallb isspace ws = true ->
  exists tail,
    trace (submit_query agent question w) =
      trace w ++
      [ StSpinner (lit "Processing with Gemini...");
        ModelCall (make_prompt question);
        StCode [];
        SqlExecute [] ] ++ tail.
Proof.
  intros Hq Hrun Hws. unfold submit_query.
  rewrite Hq, Hrun, (extract_blank_block_aux ws post Hws).
  flatten_trace.
  destruct (con_execute (con w) []) as [db [res|e]];
    flatten_trace; eexists; reflexivity.
Qed.

End PipelineMore.

(** ** The page *)

Section AppFacts.
Import Loader Pipeline App.
Context `{Library}.

Lemma sidebar_blank (session_key : option str) (key : str) :
  is_empty key = true -> fst (sidebar session_key key) = session_key.
Proof. intros Hk. unfold sidebar. now rewrite Hk. Qed.

Lemma script_key (session_key : option str) (ui : inputs) :
  fst (fst (script session_key ui)) = fst (sidebar session_key (key_input ui)).
Proof.
  unfold script. destruct (sidebar session_key (key_input ui)) as [key side].
  destruct (uploaded ui) as [file|]; [|reflexivity].
  destruct key as [k|]; [|reflexivity].
  now destruct (with_file file k ui).
Qed.

(** X16. A key typed once stays in the session: the run in which the key
    field is filled keeps that key, and it survives every later run in
    which the field is empty, whatever else those runs do. *)
Theorem key_survives (session_key : option str) (ui : inputs) (runs : list inputs) :
  is_empty (key_input ui) = false ->
  Forall (fun r => is_empty (key_input r) = true) runs ->
  session_after session_key (ui :: runs) = Some (key_input ui).
Proof.
  intros Hk Hruns. unfold session_after. simpl fold_left.
  rewrite script_key. unfold sidebar at 1. rewrite Hk. simpl fst.
  induction Hruns as [|r runs Hr _ IH]; [reflexivity|].
  simpl fold_left. rewrite script_key, (sidebar_blank _ _ Hr). exact IH.
Qed.

(** X17. Without an uploaded file, or without a key in the session and in
    the key field, a run shows the title, the sidebar and the uploader and
    nothing else: no file is read, no question box is shown, and a pressed
    button has no effect. *)
Theorem idle_run (session_key : option str) (ui : inputs) :
  uploaded ui = None \/ (session_key = None /\ is_empty (key_input ui) = true) ->
  script session_key ui =
    (fst (sidebar session_key (key_input ui)),
     [StTitle ([128202%N] ++ lit " Gemini-Powered Data Analyst")] ++
     snd (sidebar session_key (key_input ui)) ++
     [StFileUploader (lit "Upload a CSV or Excel file")],
     Completed).
Proof.
  intros Hidle. unfold script.
  destruct Hidle as [Hu | [Hs Hk]].
  - rewrite Hu. now destruct (sidebar session_key (key_input ui)).
  - subst session_key. unfold sidebar. rewrite Hk. simpl.
    now destruct (uploaded ui).
Qed.

(** X18. When the loader returns nothing, the run stops after the
    loader's message: no table is built, no question box is shown and a
    pressed button calls neither the model nor the engine. *)
Theorem failed_load_stops (file : uploaded_file) (key : str) (ui : inputs) :
  snd (preprocess_and_save file) = (None, None, None) ->
  with_file file key ui = (map Shown (fst (preprocess_and_save file)), Completed).
Proof.
  unfold with_file. destruct (preprocess_and_save file) as [msgs r].
  simpl. now intros ->.
Qed.

(** X19. The statement that loads the temporary CSV runs outside every
    [try]: when it raises, the table has been shown, the exception ends
    the run uncaught, and the question box and the button never appear. *)
Theorem create_table_uncaught (file : uploaded_file) (key : str) (ui : inputs)
    (msgs : list event) (temp_path : str) (cols : list label) (df : dataframe)
    (e : exn) :
  preprocess_and_save file = (msgs, (Some temp_path, Some cols, Some df)) ->
  temp_path <> [] ->
  cols <> [] ->
  connect_and_execute (create_table_sql temp_path) = Raise e ->
  with_file file key ui =
    (map Shown msgs ++
     [StWrite (lit "Uploaded Data:"); StTable df; StWriteList (lit "Columns:") cols],
     Uncaught e).
Proof.
  intros Hl Hp Hc He. unfold with_file. rewrite Hl. unfold load_store.
  destruct temp_path as [|a p]; [congruence|].
  destruct cols as [|c cols]; [congruence|].
  cbn [is_empty negb andb]. now rewrite He.
Qed.

(** X20. A file that is read as a table without columns is dropped in
    silence: the load succeeds, but the empty list of names fails the test
    of line 69, so the run shows no table, no message and no question
    box. *)
Theorem no_columns_silent (file : uploaded_file) (key : str) (ui : inputs)
    (temp_path : str) :
  frame_read file [] ->
  NamedTemporaryFile = Ok temp_path ->
  write_text temp_path (to_csv []) = Ok tt ->
  with_file file key ui = ([], Completed).
Proof.
  intros Hf Ht Hw. unfold with_file.
  assert (Hl : preprocess_and_save file = ([], (Some temp_path, Some [], Some []))).
  { unfold preprocess_and_save. rewrite (frame_read_try_body file [] Hf).
    unfold process. simpl. rewrite Ht. simpl. now rewrite Hw. }
  rewrite Hl. unfold load_store. now destruct temp_path.
Qed.

End AppFacts.

(** ** The theorems at concrete inputs *)

Import Loader Pipeline Demo.

Lemma extract_first_block_witness :
  has_block two_blocks /\
  extract two_blocks = Some (lit "SELECT 1") /\
  exists i j sql lead trail,
    first_block two_blocks i j /\
    extract two_blocks = Some sql /\
    interior two_blocks i j = lead ++ sql ++ trail /\
    forallb isspace lead = true /\
    forallb isspace trail = true /\
    match sql with [] => True | c :: _ => isspace c = false end /\
    match rev sql with [] => True | c :: _ => isspace c = false end /\
    forall rest,
      extract (through_block two_blocks i j ++ rest) = extract two_blocks.
Proof.
  assert (Hb : has_block two_blocks).
  { exists 0. split; [reflexivity|]. exists 9. reflexivity. }
  split; [exact Hb|]. split; [reflexivity|].
  exact (extract_first_block two_blocks Hb).
Defined.

Lemma date_columns_coerced_witness :
  exists df c',
    infer_types (escape_quotes people) = Ok df /\
    nth_error df 2 = Some c' /\
    col_name c' = LStr (lit "Birth_Date") /\
    col_dtype c' = DDatetime /\
    col_cells c' = [Stamp 19900101%N; Null].
Proof.
  destruct (date_columns_coerced people 2
              {| col_name := lit "Birth_Date"; col_dtype := DObject;
                 col_cells := [Text (lit "19900101"); Text (lit "oops")] |}
              (lit "Birth_Date") eq_refl eq_refl eq_refl)
    as (c' & _ & Hn & Hd & Hl & Hv & Hdf).
  pose proof (Hv 0 (Text (lit "19900101")) eq_refl) as H0.
  pose proof (Hv 1 (Text (lit "oops")) eq_refl) as H1.
  destruct (infer_types (escape_quotes people)) as [df|e] eqn:E; [|discriminate E].
  exists df, c'. split; [reflexivity|]. split; [now apply Hdf|].
  split; [exact Hn|]. split; [exact Hd|].
  destruct (col_cells c') as [|a [|b [|x l]]]; try discriminate Hl.
  simpl in H0, H1. injection H0 as ->. injection H1 as ->. reflexivity.
Defined.

Lemma unsupported_format_witness :
  Loader.preprocess_and_save notes_txt =
    ([Loader.StError (lit "Unsupported file format. Please upload a CSV or Excel file.")],
     (None, None, None)).
Proof. exact (unsupported_format notes_txt eq_refl eq_refl). Defined.

Lemma ingestion_error_reported_witness :
  Loader.preprocess_and_save empty_csv =
    ([Loader.StError (lit "Error processing file: No columns to parse from file")],
     (None, None, None)).
Proof.
  exact (ingestion_error_reported empty_csv
           {| exn_cls := OtherException;
              exn_msg := lit "No columns to parse from file" |}
           (Loader.raises_read_csv empty_csv _ eq_refl eq_refl)).
Defined.

Lemma quotes_doubled_witness :
  nth_error (Loader.escape_quotes people) 0 =
    Some {| col_name := lit "name"; col_dtype := DObject;
            col_cells := [Text (lit "al" ++ [Loader.DQUOTE; Loader.DQUOTE] ++ lit "ice");
                          Text (lit "nan")] |}.
Proof.
  exact (proj1 (quotes_doubled people 0
                  {| col_name := lit "name"; col_dtype := DObject;
                     col_cells := [Text (lit "al" ++ [Loader.DQUOTE] ++ lit "ice"); Null] |}
                  eq_refl eq_refl)).
Defined.

Lemma no_sql_found_witness :
  extract (lit "SELECT 1") = None /\
  Pipeline.trace (Pipeline.submit_query demo_agent (lit "how many rows?") demo_world) =
    [ Loader.StSpinner (lit "Processing with Gemini...");
      Loader.ModelCall (Pipeline.make_prompt (lit "how many rows?"));
      Loader.StWarning (lit "Gemini did not return a valid SQL query. Try rephrasing.");
      Loader.StMarkdown (lit "SELECT 1") ].
Proof.
  assert (Hn : ~ has_block (lit "SELECT 1")).
  { intros Hb. pose proof (search_spec (lit "SELECT 1")) as Hs.
    change (search (lit "SELECT 1")) with (@None str) in Hs. exact (Hs Hb). }
  assert (Hq : is_empty (strip (lit "how many rows?")) = false) by reflexivity.
  assert (Hr : run demo_agent (make_prompt (lit "how many rows?")) = Ok (lit "SELECT 1"))
    by reflexivity.
  destruct (no_sql_found demo_agent (lit "how many rows?") (lit "SELECT 1")
              demo_world Hq Hr Hn) as [He Hw].
  split; [exact He|]. now rewrite Hw.
Defined.

Lemma blank_query_warned_witness :
  Pipeline.submit_query demo_agent [32%N; 9%N; LF] demo_world =
    {| Pipeline.gemini_key := Some (lit "key");
       Pipeline.con := [];
       Pipeline.trace := [Loader.StWarning (lit "Please enter a valid query.")] |}.
Proof. exact (blank_query_warned demo_agent [32%N; 9%N; LF] demo_world eq_refl). Defined.

(** C4, at a file. The reader marks the tokens "NA" and "missing" as
    missing, but lines 31-32 run before the type inference and turn a
    missing value of a text column into the text "nan": in the table the
    loader returns, the cells that held the tokens are texts, not nulls. *)
Theorem na_token_becomes_text :
  Demo.demo_read people_csv Loader.na_values =
    Ok [ {| col_name := lit "name"; col_dtype := DObject;
            col_cells := [Text (lit "alice"); Null] |};
         {| col_name := lit "city"; col_dtype := DObject;
            col_cells := [Text (lit "Oslo"); Null] |} ] /\
  Loader.preprocess_and_save people_csv =
    ([], (Some (lit "/tmp/tmpdata.csv"),
          Some [LStr (lit "name"); LStr (lit "city")],
          Some [ {| col_name := lit "name"; col_dtype := DObject;
                    col_cells := [Text (lit "alice"); Text (lit "nan")] |};
                 {| col_name := lit "city"; col_dtype := DObject;
                    col_cells := [Text (lit "Oslo"); Text (lit "nan")] |} ])).
Proof. split; vm_compute; reflexivity. Qed.

(** ** The further theorems at concrete inputs *)

(** The library of the examples with another model, engine, connection and
    reader. *)
Definition demo_with (reply : result str) (answer : result (list str))
    (opened : result (list str))
    (reader : uploaded_file -> list str -> result dataframe)
  : @Library demo_values :=
  {| unicode_lower := fun c => [c];
     str_of_num := show_decimal;
     str_of_timestamp := show_decimal;
     parse_numeric := demo_parse_numeric;
     parse_timestamp := demo_parse_timestamp;
     read_csv := reader;
     read_excel := reader;
     linesep := [LF];
     NamedTemporaryFile := Ok (lit "/tmp/tmpdata.csv");
     write_text := fun _ _ => Ok tt;
     generate_content := fun _ _ _ => reply;
     connect_and_execute := fun _ => opened;
     con_execute := fun db sql => (db ++ [sql], answer) |}.

Definition failure (m : string) : exn :=
  {| exn_cls := OtherException; exn_msg := lit m |}.

Definition lib_answers : Library :=
  demo_with (Ok two_blocks) (Ok [lit "1"]) (Ok []) demo_read.

Definition lib_engine_fails : Library :=
  demo_with (Ok two_blocks) (Raise (failure "Parser Error")) (Ok []) demo_read.

Definition lib_model_fails : Library :=
  demo_with (Raise (failure "API key not valid")) (Ok []) (Ok []) demo_read.

Definition lib_blank_block : Library :=
  demo_with (Ok (opener ++ [32%N; LF] ++ fence ++ lit " done")) (Ok []) (Ok [])
    demo_read.

Definition lib_no_table : Library :=
  demo_with (Ok two_blocks) (Ok []) (Raise (failure "IO Error")) demo_read.

Definition lib_no_columns : Library :=
  demo_with (Ok two_blocks) (Ok []) (Ok []) (fun _ _ => Ok []).

Definition people_read : dataframe :=
  [ {| col_name := lit "name"; col_dtype := DObject;
       col_cells := [Text (lit "alice"); Null] |};
    {| col_name := lit "city"; col_dtype := DObject;
       col_cells := [Text (lit "Oslo"); Null] |} ].

Definition people_loaded : dataframe :=
  [ {| col_name := lit "name"; col_dtype := DObject;
       col_cells := [Text (lit "alice"); Text (lit "nan")] |};
    {| col_name := lit "city"; col_dtype := DObject;
       col_cells := [Text (lit "Oslo"); Text (lit "nan")] |} ].

Definition ages : dataframe :=
  [ {| col_name := lit "age"; col_dtype := DNumeric;
       col_cells := [Number 30%N; Null] |} ].

Definition asking : App.inputs :=
  {| App.key_input := lit "key";
     App.uploaded := Some people_csv;
     App.user_query := lit "how many rows?";
     App.submit_clicked := true |}.

Definition returning : App.inputs :=
  {| App.key_input := [];
     App.uploaded := None;
     App.user_query := [];
     App.submit_clicked := true |}.

Lemma extract_no_fence_witness :
  extract two_blocks = Some (lit "SELECT 1") /\
  contains fence (lit "SELECT 1") = false.
Proof.
  split; [reflexivity|].
  exact (extract_no_fence two_blocks (lit "SELECT 1") eq_refl).
Defined.

Lemma extract_trimmed_witness :
  extract two_blocks = Some (lit "SELECT 1") /\
  isspace 83%N = false /\ isspace 49%N = false.
Proof.
  split; [reflexivity|].
  exact (extract_trimmed two_blocks (lit "SELECT 1") eq_refl).
Defined.

Lemma extract_blank_block_witness :
  extract (opener ++ [32%N; LF] ++ fence ++ lit " done") = Some [] /\
  has_block (opener ++ [32%N; LF] ++ fence ++ lit " done").
Proof. exact (extract_blank_block [32%N; LF] (lit " done") eq_refl). Defined.

Lemma loader_success_witness :
  preprocess_and_save people_csv =
    ([], (Some (lit "/tmp/tmpdata.csv"), Some (columns people_read), Some people_loaded)) /\
  columns people_loaded = columns people_read /\
  heights people_loaded = heights people_read.
Proof.
  exact (loader_success people_csv people_read people_loaded (lit "/tmp/tmpdata.csv")
           (or_introl (conj eq_refl eq_refl)) eq_refl eq_refl eq_refl).
Defined.

Lemma other_columns_untouched_witness :
  infer_types (escape_quotes ages) = Ok ages /\
  nth_error ages 0 =
    Some {| col_name := lit "age"; col_dtype := DNumeric;
            col_cells := [Number 30%N; Null] |}.
Proof.
  split; [reflexivity|].
  exact (other_columns_untouched ages ages 0
           {| col_name := lit "age"; col_dtype := DNumeric;
              col_cells := [Number 30%N; Null] |}
           (lit "age") eq_refl eq_refl eq_refl eq_refl eq_refl).
Defined.

Lemma object_columns_hold_text_witness :
  forallb is_text [Text (lit "alice"); Text (lit "nan")] = true.
Proof.
  exact (object_columns_hold_text people_read
           {| col_name := lit "name"; col_dtype := DObject;
              col_cells := [Text (lit "alice"); Text (lit "nan")] |}
           (or_introl eq_refl) eq_refl).
Defined.

Lemma date_name_any_case_witness :
  is_date_name (lit "Last_UpDaTe" ++ [100%N; 65%N; 116%N; 69%N] ++ lit "_utc") = true.
Proof.
  exact (date_name_any_case (lit "Last_UpDaTe") (lit "_utc") 100%N 65%N 116%N 69%N
           (or_introl eq_refl) (or_intror eq_refl)
           (or_introl eq_refl) (or_intror eq_refl)).
Defined.

Lemma capital_extension_refused_witness :
  preprocess_and_save
    {| file_name := lit "sales" ++ lit ".CSV"; file_bytes := encode "a,b" |} =
    ([StError (lit "Unsupported file format. Please upload a CSV or Excel file.")],
     (None, None, None)).
Proof.
  exact (capital_extension_refused (lit "sales") (lit ".CSV") (encode "a,b")
           (or_introl eq_refl)).
Defined.

Lemma query_executed_witness :
  @submit_query demo_values lib_answers demo_agent (lit "how many rows?") demo_world =
    {| gemini_key := Some (lit "key");
       con := [lit "SELECT 1"];
       trace :=
         [ StSpinner (lit "Processing with Gemini...");
           ModelCall (make_prompt (lit "how many rows?"));
           StCode (lit "SELECT 1");
           SqlExecute (lit "SELECT 1");
           StSuccess (lit "Query executed successfully!");
           StDataframe [lit "1"] ] |}.
Proof.
  exact (@query_executed demo_values lib_answers demo_agent (lit "how many rows?")
           two_blocks (lit "SELECT 1") demo_world [lit "SELECT 1"] [lit "1"]
           eq_refl eq_refl eq_refl eq_refl).
Defined.

Lemma query_failed_witness :
  @submit_query demo_values lib_engine_fails demo_agent (lit "how many rows?")
    demo_world =
    {| gemini_key := Some (lit "key");
       con := [lit "SELECT 1"];
       trace :=
         [ StSpinner (lit "Processing with Gemini...");
           ModelCall (make_prompt (lit "how many rows?"));
           StCode (lit "SELECT 1");
           SqlExecute (lit "SELECT 1");
           StError (lit "Failed to run Gemini query: Parser Error") ] |}.
Proof.
  exact (@query_failed demo_values lib_engine_fails demo_agent (lit "how many rows?")
           two_blocks (lit "SELECT 1") demo_world [lit "SELECT 1"]
           (failure "Parser Error") eq_refl eq_refl eq_refl eq_refl).
Defined.

Lemma model_failed_witness :
  @submit_query demo_values lib_model_fails demo_agent (lit "how many rows?")
    demo_world =
    {| gemini_key := Some (lit "key");
       con := [];
       trace :=
         [ StSpinner (lit "Processing with Gemini...");
           ModelCall (make_prompt (lit "how many rows?"));
           StError (lit "Failed to run Gemini query: API key not valid") ] |}.
Proof.
  exact (@model_failed demo_values lib_model_fails demo_agent (lit "how many rows?")
           demo_world (failure "API key not valid") eq_refl eq_refl).
Defined.

Lemma blank_block_executed_witness :
  exists tail,
    trace (@submit_query demo_values lib_blank_block demo_agent
             (lit "how many rows?") demo_world) =
      [ StSpinner (lit "Processing with Gemini...");
        ModelCall (make_prompt (lit "how many rows?"));
        StCode [];
        SqlExecute [] ] ++ tail.
Proof.
  exact (@blank_block_executed demo_values lib_blank_block demo_agent
           (lit "how many rows?") [32%N; LF] (lit " done") demo_world
           eq_refl eq_refl eq_refl).
Defined.

Lemma key_survives_witness :
  App.session_after None [asking; returning; returning] = Some (lit "key").
Proof.
  apply (key_survives None asking [returning; returning]);
    [reflexivity | repeat constructor].
Defined.

Lemma idle_run_witness :
  App.script (Some (lit "key")) returning =
    (Some (lit "key"),
     [ App.StTitle ([128202%N] ++ lit " Gemini-Powered Data Analyst");
       App.StHeader (lit "Gemini API Key");
       App.StTextInput (lit "Enter your Gemini API key:");
       App.Shown (StWarning (lit "Please enter your Gemini API key to proceed."));
       App.StFileUploader (lit "Upload a CSV or Excel file") ],
     App.Completed).
Proof. exact (idle_run (Some (lit "key")) returning (or_introl eq_refl)). Defined.

Lemma failed_load_stops_witness :
  App.with_file notes_txt (lit "key") asking =
    ([App.Shown
        (StError (lit "Unsupported file format. Please upload a CSV or Excel file."))],
     App.Completed).
Proof. exact (failed_load_stops notes_txt (lit "key") asking eq_refl). Defined.

Lemma create_table_uncaught_witness :
  @App.with_file demo_values lib_no_table people_csv (lit "key") asking =
    ([ App.StWrite (lit "Uploaded Data:");
       App.StTable people_loaded;
       App.StWriteList (lit "Columns:") [LStr (lit "name"); LStr (lit "city")] ],
     App.Uncaught (failure "IO Error")).
Proof.
  assert (Hp : lit "/tmp/tmpdata.csv" <> []) by discriminate.
  assert (Hc : [LStr (lit "name"); LStr (lit "city")] <> []) by discriminate.
  exact (@create_table_uncaught demo_values lib_no_table people_csv (lit "key") asking
           [] (lit "/tmp/tmpdata.csv") [LStr (lit "name"); LStr (lit "city")]
           people_loaded
           (failure "IO Error") eq_refl Hp Hc eq_refl).
Defined.

Lemma no_columns_silent_witness :
  @App.with_file demo_values lib_no_columns people_csv (lit "key") asking =
    ([], App.Completed).
Proof.
  exact (@no_columns_silent demo_values lib_no_columns people_csv (lit "key") asking
           (lit "/tmp/tmpdata.csv") (or_introl (conj eq_refl eq_refl)) eq_refl eq_refl).
Defined.

(** The table the type inference builds from [people]. *)
Definition people_typed : dataframe :=
  Eval vm_compute in
    match infer_types (escape_quotes people) with
    | Ok df => df
    | Raise _ => []
    end.

Lemma quotes_written_fourfold_witness :
  process people =
    Ok (Some (lit "/tmp/tmpdata.csv"), Some (columns people_typed), Some people_typed) /\
  exists before after,
    to_csv people_typed =
      before ++ [DQUOTE] ++
      (lit "al" ++ [DQUOTE; DQUOTE; DQUOTE; DQUOTE] ++ lit "ice") ++
      [DQUOTE] ++ after.
Proof.
  assert (Hdf : infer_types (escape_quotes people) = Ok people_typed)
    by (vm_compute; reflexivity).
  assert (Hk : nth_error people_typed 0 =
               Some (escaped {| col_name := lit "name"; col_dtype := DObject;
                                col_cells := [Text (lit "al" ++ [DQUOTE] ++ lit "ice");
                                              Null] |}))
    by (vm_compute; reflexivity).
  destruct (quotes_written_fourfold people people_typed 0 0
              {| col_name := lit "name"; col_dtype := DObject;
                 col_cells := [Text (lit "al" ++ [DQUOTE] ++ lit "ice"); Null] |}
              (Text (lit "al" ++ [DQUOTE] ++ lit "ice")) (lit "/tmp/tmpdata.csv")
              eq_refl eq_refl eq_refl (Nat.lt_0_succ 1) Hdf Hk eq_refl eq_refl)
    as (Hp & Hex & _).
  split; [exact Hp | exact Hex].
Defined.

(** A sheet whose column of ages is read as texts, one of them missing,
    and the same sheet without the missing value. *)
Definition ages_xlsx : uploaded_file :=
  {| file_name := lit "ages.xlsx"; file_bytes := [] |}.






(** A sheet whose header holds the year 2024 as a number: line 35 raises on
    the label and the load fails, although the reader succeeded. *)
Example integer_label_fails :
  @preprocess_and_save demo_values
    (demo_with (Ok two_blocks) (Ok []) (Ok [])
       (fun _ _ => Ok [ {| col_name := LInt 2024; col_dtype := DNumeric;
                           col_cells := [Number 7%N] |} ]))
    ages_xlsx =
    ([StError (lit "Error processing file: 'int' object has no attribute 'lower'")],
     (None, None, None)).
Proof. vm_compute. reflexivity. Qed.
